(** * file_handle: a shallow embedding of [file_handle.py]

    The module is a thin layer over [pathlib] and [shutil]: every method of
    [FileHandle] is a short sequence of filesystem calls wrapped in
    [try]/[except].  The embedding follows that shape:

    - the host filesystem is an interface ([Platform]) whose operations are
      the [pathlib]/[shutil] calls made by the module;
    - Python's control flow (return, raise, [try]/[except], raise-from) is a
      state-and-exception monad [M] over a [world], which holds the
      filesystem, the contents of [file_handle.log] and the list of
      calls made so far;
    - [PosixFS] is one concrete platform (a finite map from paths to files
      and directories) on which the methods can be run. *)

From stdpp Require Import gmap strings list fin_maps pretty.
From Stdlib Require Import ZArith Ascii.

Set Warnings "-register-all".


(** ** Paths ([pathlib.PurePosixPath]) *)

(** A path is its tuple of parts, as [PurePath.parts] gives it; the root of an
    absolute path is the leading part, ["/"] or (for a path that starts with
    exactly two slashes) ["//"]. *)
Abbreviation Path := (list string).

Module pathlib.

Definition is_root (r : string) : bool :=
  bool_decide (r = "/") || bool_decide (r = "//").

Definition is_absolute (p : Path) : bool :=
  match p with
  | r :: _ => is_root r
  | [] => false
  end.

(** [PurePath.name]: the final component, empty for the root and for the
    empty path. *)
Definition name (p : Path) : string :=
  if bool_decide (length p = (if is_absolute p then 1 else 0)) then ""
  else List.last p "".

(** [str.rfind(".")], as an option instead of -1. *)
Fixpoint rfind_dot (s : string) : option nat :=
  match s with
  | EmptyString => None
  | String c s' =>
      match rfind_dot s' with
      | Some i => Some (S i)
      | None => if bool_decide (c = "."%char) then Some 0 else None
      end
  end.

(** [PurePath.suffix]: [name[i:]] when [0 < i < len(name) - 1] for
    [i = name.rfind(".")], and the empty string otherwise. *)
Definition suffix (p : Path) : string :=
  let n := name p in
  match rfind_dot n with
  | Some i =>
      if bool_decide (0 < i) && bool_decide (i + 1 < String.length n)
      then String.substring i (String.length n - i) n
      else ""
  | None => ""
  end.

Fixpoint contains_char (c : ascii) (s : string) : bool :=
  match s with
  | EmptyString => false
  | String c' s' => bool_decide (c = c') || contains_char c s'
  end.

Definition startswith_dot (s : string) : bool :=
  match s with
  | String c _ => bool_decide (c = "."%char)
  | EmptyString => false
  end.

(** [PurePath.with_suffix]: [inr msg] stands for [ValueError], with the
    message shortened to [msg]. *)
Definition with_suffix (p : Path) (suffix' : string) : Path + string :=
  if contains_char "/" suffix' then inr "Invalid suffix"
  else if (negb (bool_decide (suffix' = "")) && negb (startswith_dot suffix'))
          || bool_decide (suffix' = ".")
  then inr "Invalid suffix"
  else
    let n := name p in
    if bool_decide (n = "") then inr "has an empty name"
    else
      let old_suffix := suffix p in
      let n' :=
        if bool_decide (old_suffix = "") then n +:+ suffix'
        else String.substring 0 (String.length n - String.length old_suffix) n
             +:+ suffix' in
      inl (removelast p ++ [n']).

(** [str(path)]. *)
Definition str (p : Path) : string :=
  match p with
  | [] => "."
  | r :: rest =>
      if is_root r then r +:+ String.concat "/" rest
      else String.concat "/" p
  end.

End pathlib.

(** ** [errno] constants (Linux values) *)

Definition ENOENT : Z := 2.
Definition EACCES : Z := 13.
Definition EEXIST : Z := 17.
Definition ENOTDIR : Z := 20.
Definition EISDIR : Z := 21.
Definition EINVAL : Z := 22.
Definition EROFS : Z := 30.
Definition ENOTEMPTY : Z := 39.

(** ** Exceptions *)

(** The attributes of an [OSError] that the module reads.  [errno] is [None]
    for an [OSError] built without arguments (e.g. [shutil.SameFileError]);
    [strerror] and [filename] are kept as they print. *)
Record os_error : Type := OsError {
  errno : option Z;
  strerror : string;
  filename : string
}.

(** The four exception classes defined by the module. *)
Inductive error_class : Type :=
| SourceNotValidError
| DestinationNotValidError
| PermissionDeniedError
| ReadOnlyError.

(** An exception value: [OSError], [ValueError], or an instance of one of the
    module's classes with its message and its [__cause__] (set by
    [raise ... from ...]). *)
Inductive exn : Type :=
| OSError (e : os_error)
| ValueError (msg : string)
| Error (c : error_class) (msg : string) (cause : option exn).

#[global] Instance error_class_eq_dec : EqDecision error_class.
Proof. solve_decision. Defined.

Definition class_of (e : exn) : option error_class :=
  match e with
  | Error c _ _ => Some c
  | _ => None
  end.

(** Python values returned by the methods of [FileHandle]. *)
Inductive pyval : Type :=
| PyNone
| PyBool (b : bool)
| PyPath (p : Path).

(** The calls the module makes to the outside: into the filesystem, and to
    the copy strategy handed to [transfer]. *)
Inductive call : Type :=
| CExists (p : Path)
| CIsFile (p : Path)
| CMkdir (p : Path)
| CRmdir (p : Path)
| CIterdir (p : Path)
| CUnlink (p : Path)
| CCopy2 (s d : Path)
| CCopyFunc (s d : Path).

#[global] Instance call_eq_dec : EqDecision call.
Proof. solve_decision. Defined.

(** ** The host platform

    The operations of [pathlib.Path] and [shutil] that [file_handle.py]
    calls.  A failing operation yields the [OSError] it raises, together
    with the filesystem it leaves behind.  [exists] and [is_file] only look:
    they answer [False] for whatever they cannot find.

    This is the interface the module is written against.  What the library
    does outside it is not covered: [exists] and [is_file] passing on an
    [OSError] such as [EACCES] that is none of the "not found" kinds, or any
    call raising [ValueError] for a path with an embedded NUL.  So the
    properties below say what the module does given what a call answered;
    none of them lists all the exceptions a method may raise. *)
Class Platform : Type := {
  FS : Type;
  (** [Path.exists()] *)
  os_exists : Path -> FS -> bool;
  (** [Path.is_file()] *)
  os_is_file : Path -> FS -> bool;
  (** [Path.mkdir(parents=True, exist_ok=True)] *)
  os_mkdir : Path -> FS -> option os_error * FS;
  (** [Path.rmdir()] *)
  os_rmdir : Path -> FS -> option os_error * FS;
  (** [Path.iterdir()] *)
  os_iterdir : Path -> FS -> os_error + list Path;
  (** [Path.unlink()] *)
  os_unlink : Path -> FS -> option os_error * FS;
  (** [shutil.copy2(source, destination)] *)
  os_copy2 : Path -> Path -> FS -> option os_error * FS
}.

(** ** The monad of Python computations *)

Section Python.
Context {P : Platform}.

Record world : Type := World {
  fs : FS;
  log : list string;      (* lines written to file_handle.log *)
  calls : list call       (* calls made so far, oldest first *)
}.

(** [OutOfFuel] is produced only by the recursion bound of
    [remove_directory]. *)
Inductive outcome (A : Type) : Type :=
| Return (a : A)
| Raise (e : exn)
| OutOfFuel.
#[global] Arguments Return {A} a.
#[global] Arguments Raise {A} e.
#[global] Arguments OutOfFuel {A}.

Definition M (A : Type) : Type := world -> outcome A * world.

Definition ret {A} (a : A) : M A := fun w => (Return a, w).

Definition raise {A} (e : exn) : M A := fun w => (Raise e, w).

Definition bind {A B} (m : M A) (k : A -> M B) : M B :=
  fun w =>
    match m w with
    | (Return a, w') => k a w'
    | (Raise e, w') => (Raise e, w')
    | (OutOfFuel, w') => (OutOfFuel, w')
    end.

(** [try: body / except ...: handler].  The handler answers [None] for an
    exception that no [except] clause matches; an exception raised inside a
    handler is not caught by the same [try]. *)
Definition try_except {A} (body : M A) (handler : exn -> option (M A)) : M A :=
  fun w =>
    match body w with
    | (Raise e, w') =>
        match handler e with
        | Some h => h w'
        | None => (Raise e, w')
        end
    | r => r
    end.

(** [for x in xs: body x] *)
Fixpoint for_each {A} (xs : list A) (body : A -> M pyval) : M pyval :=
  match xs with
  | [] => ret PyNone
  | x :: xs' => bind (body x) (fun _ => for_each xs' body)
  end.

Definition called (c : call) (w : world) : world :=
  World (fs w) (log w) (calls w ++ [c]).

Definition set_fs (f : FS) (w : world) : world :=
  World f (log w) (calls w).

(** A platform operation that changes the filesystem and may raise. *)
Definition command (c : call) (op : FS -> option os_error * FS) : M pyval :=
  fun w =>
    match op (fs w) with
    | (None, f) => (Return PyNone, set_fs f (called c w))
    | (Some e, f) => (Raise (OSError e), set_fs f (called c w))
    end.

(** A platform operation that only reads the filesystem. *)
Definition query (c : call) (op : FS -> bool) : M bool :=
  fun w => (Return (op (fs w)), called c w).

Definition logging_error (msg : string) : M pyval :=
  fun w => (Return PyNone, World (fs w) (log w ++ [msg]) (calls w)).

End Python.

Declare Scope py_scope.
Delimit Scope py_scope with py.
Notation "x <- c1 ;; c2" := (bind c1 (fun x => c2))
  (at level 100, c1 at next level, right associativity) : py_scope.
Notation "c1 ;; c2" := (bind c1 (fun _ => c2))
  (at level 100, right associativity) : py_scope.

Local Open Scope py_scope.

(** ** [class FileHandle] *)

Module FileHandle.
Section Methods.
Context {P : Platform}.

(** The calls into [pathlib] and [shutil]. *)
Definition exists_ (path : Path) : M bool :=
  query (CExists path) (os_exists path).

Definition is_file (path : Path) : M bool :=
  query (CIsFile path) (os_is_file path).

Definition mkdir (path : Path) : M pyval :=
  command (CMkdir path) (os_mkdir path).

Definition rmdir (path : Path) : M pyval :=
  command (CRmdir path) (os_rmdir path).

Definition unlink (path : Path) : M pyval :=
  command (CUnlink path) (os_unlink path).

Definition copy2 (source destination : Path) : M pyval :=
  command (CCopy2 source destination) (os_copy2 source destination).

Definition iterdir (path : Path) : M (list Path) :=
  fun w =>
    match os_iterdir path (fs w) with
    | inr children => (Return children, called (CIterdir path) w)
    | inl e => (Raise (OSError e), called (CIterdir path) w)
    end.

Definition with_suffix (path : Path) (suffix : string) : M Path :=
  match pathlib.with_suffix path suffix with
  | inl p => ret p
  | inr msg => raise (ValueError msg)
  end.

(** [f"{error.errno} - {error.strerror} - {error.filename}"] *)
Definition describe (error : os_error) : string :=
  match errno error with Some n => pretty n | None => "None" end
  +:+ " - " +:+ strerror error +:+ " - " +:+ filename error.

(** [error.errno == code] *)
Definition errno_is (error : os_error) (code : Z) : bool :=
  bool_decide (errno error = Some code).

(** [except OSError as error: handler error] *)
Definition except_OSError {A} (handler : os_error -> M A) (e : exn) : option (M A) :=
  match e with
  | OSError error => Some (handler error)
  | _ => None
  end.

Definition make_directory (path : Path) : M pyval :=
  try_except
    (mkdir path ;;
     ret (PyBool true))
    (except_OSError (fun error =>
       if negb (errno_is error EACCES) then
         logging_error (describe error) ;;
         raise (Error PermissionDeniedError (describe error) None)
       else if errno_is error EROFS then
         logging_error (describe error) ;;
         raise (Error ReadOnlyError (describe error) None)
       else
         ret PyNone)).

(** [fuel] bounds the depth of the recursion. *)
Fixpoint remove_directory (fuel : nat) (path : Path) : M pyval :=
  match fuel with
  | O => fun w => (OutOfFuel, w)
  | S fuel' =>
      try_except
        (rmdir path ;;
         ret (PyBool true))
        (except_OSError (fun error =>
           if negb (errno_is error ENOTEMPTY) then
             logging_error (describe error) ;;
             raise (OSError error)
           else
             children <- iterdir path ;;
             for_each children (fun child =>
               b <- is_file child ;;
               if b then unlink child
               else remove_directory fuel' child) ;;
             rmdir path ;;
             ret (PyBool true)))
  end.

Definition copy (source destination : Path) : M pyval :=
  try_except
    (copy2 source destination ;;
     ret (PyBool true))
    (except_OSError (fun error =>
       logging_error (describe error) ;;
       raise (OSError error))).

Definition create_backup (path : Path) : M pyval :=
  try_except
    (backup_path <- with_suffix path ".bak" ;;
     copy path backup_path ;;
     ret (PyPath backup_path))
    (except_OSError (fun error =>
       logging_error (describe error) ;;
       raise (OSError error))).

Definition validate_paths (source destination : Path) : M pyval :=
  s <- exists_ source ;;
  if negb s then
    raise (Error SourceNotValidError (pathlib.str source +:+ " does not exist.") None)
  else
    d <- exists_ destination ;;
    if negb d then
      raise (Error DestinationNotValidError
               (pathlib.str destination +:+ " does not exist.") None)
    else ret PyNone.

(** A copy strategy: any callable taking the two paths. *)
Definition copy_strategy : Type := Path -> Path -> M pyval.

(** [copy_func(source, destination)] *)
Definition invoke (copy_func : copy_strategy) (source destination : Path) : M pyval :=
  fun w => copy_func source destination (called (CCopyFunc source destination) w).

Definition transfer (source destination : Path) (copy_func : copy_strategy) : M pyval :=
  try_except
    (validate_paths source destination)
    (fun error =>
       match class_of error with
       | Some DestinationNotValidError =>
           Some (try_except
                   (make_directory destination)
                   (fun error' =>
                      match class_of error' with
                      | Some PermissionDeniedError | Some ReadOnlyError =>
                          Some (raise (Error DestinationNotValidError "" (Some error')))
                      | _ => None
                      end))
       | Some SourceNotValidError =>
           Some (raise (Error SourceNotValidError "" (Some error)))
       | _ => None
       end) ;;
  invoke copy_func source destination ;;
  ret PyNone.

(** [upload] and [download] are called with [copy_func = copy] when the caller
    gives no strategy. *)
Definition upload (source destination : Path) (copy_func : copy_strategy) : M pyval :=
  transfer source destination copy_func ;;
  ret (PyBool true).

Definition download (source destination : Path) (copy_func : copy_strategy) : M pyval :=
  transfer source destination copy_func ;;
  ret (PyBool true).

End Methods.
End FileHandle.

(** ** A concrete platform

    A filesystem is a finite map from paths to files and directories.  The
    empty path is the directory that paths are resolved against and is always
    present; an entry lives in the directory named by the path without its
    last part.  Creating or deleting an entry needs a writable mount and a
    writable containing directory.  There are only regular files and
    directories: no links, devices or sockets. *)

Module PosixFS.

Inductive node : Type :=
| File (data : string)
| Dir (writable : bool).

#[global] Instance node_eq_dec : EqDecision node.
Proof. solve_decision. Defined.

Record t : Type := Mk {
  entries : gmap Path node;
  read_only : bool
}.

Definition failure (code : Z) (what : string) (p : Path) : os_error :=
  OsError (Some code) what (pathlib.str p).

Definition set_entries (m : gmap Path node) (st : t) : t :=
  Mk m (read_only st).

Definition exists_ (p : Path) (st : t) : bool :=
  bool_decide (is_Some (entries st !! p)).

Definition is_file (p : Path) (st : t) : bool :=
  match entries st !! p with
  | Some (File _) => true
  | _ => false
  end.

Definition dir_at (p : Path) (m : gmap Path node) : bool :=
  match m !! p with
  | Some (Dir _) => true
  | _ => false
  end.

Definition is_dir (p : Path) (st : t) : bool := dir_at p (entries st).

(** The paths of the entries of directory [p]. *)
Definition children (p : Path) (m : gmap Path node) : list Path :=
  filter (fun k => k ≠ [] ∧ removelast k = p) (map_to_list m).*1.

(** Is one of the directories on the way to [p] a regular file? *)
Definition below_file (p : Path) (m : gmap Path node) : bool :=
  existsb
    (fun n => match m !! take n p with Some (File _) => true | _ => false end)
    (seq 0 (length p)).

(** The error for an entry that is not there: [ENOTDIR] when the way to it
    goes through a regular file, [ENOENT] otherwise. *)
Definition not_found (p : Path) (st : t) : os_error :=
  if below_file p (entries st) then failure ENOTDIR "Not a directory" p
  else failure ENOENT "No such file or directory" p.

(** May an entry be added to, or removed from, the directory holding [p]? *)
Definition check_write (p : Path) (st : t) : option os_error :=
  if read_only st then Some (failure EROFS "Read-only file system" p)
  else
    match entries st !! removelast p with
    | Some (Dir true) => None
    | _ => Some (failure EACCES "Permission denied" p)
    end.

(** [os.mkdir(p)] *)
Definition mkdir1 (p : Path) (st : t) : option os_error * t :=
  match entries st !! p with
  | Some _ => (Some (failure EEXIST "File exists" p), st)
  | None =>
      match entries st !! removelast p with
      | None => (Some (not_found p st), st)
      | Some (File _) => (Some (failure ENOTDIR "Not a directory" p), st)
      | Some (Dir _) =>
          match check_write p st with
          | Some e => (Some e, st)
          | None => (None, set_entries (<[p := Dir true]> (entries st)) st)
          end
      end
  end.

(** [Path.mkdir(parents=False, exist_ok=True)] *)
Definition mkdir_exist_ok (p : Path) (st : t) : option os_error * t :=
  match mkdir1 p st with
  | (Some e, st') =>
      if bool_decide (errno e = Some ENOENT) then (Some e, st')
      else if is_dir p st' then (None, st')
      else (Some e, st')
  | r => r
  end.

(** [Path.mkdir(parents=True, exist_ok=True)]: on [FileNotFoundError] the
    parent is created first; [n] is the number of parts of [p] still
    available for that. *)
Fixpoint mkdir_parents (n : nat) (p : Path) (st : t) : option os_error * t :=
  match mkdir1 p st with
  | (Some e, st') =>
      if bool_decide (errno e = Some ENOENT) then
        match n with
        | O => (Some e, st')
        | S n' =>
            match mkdir_parents n' (removelast p) st' with
            | (None, st'') => mkdir_exist_ok p st''
            | r => r
            end
        end
      else if is_dir p st' then (None, st')
      else (Some e, st')
  | r => r
  end.

Definition mkdir (p : Path) (st : t) : option os_error * t :=
  mkdir_parents (length p) p st.

(** [os.rmdir(p)] *)
Definition rmdir (p : Path) (st : t) : option os_error * t :=
  match entries st !! p with
  | None => (Some (not_found p st), st)
  | Some (File _) => (Some (failure ENOTDIR "Not a directory" p), st)
  | Some (Dir _) =>
      if bool_decide (p = []) then (Some (failure EINVAL "Invalid argument" p), st)
      else
        match check_write p st with
        | Some e => (Some e, st)
        | None =>
            match children p (entries st) with
            | [] => (None, set_entries (delete p (entries st)) st)
            | _ :: _ => (Some (failure ENOTEMPTY "Directory not empty" p), st)
            end
        end
  end.

(** [os.unlink(p)] *)
Definition unlink (p : Path) (st : t) : option os_error * t :=
  match entries st !! p with
  | None => (Some (not_found p st), st)
  | Some (Dir _) => (Some (failure EISDIR "Is a directory" p), st)
  | Some (File _) =>
      match check_write p st with
      | Some e => (Some e, st)
      | None => (None, set_entries (delete p (entries st)) st)
      end
  end.

(** [os.listdir(p)], as paths *)
Definition iterdir (p : Path) (st : t) : os_error + list Path :=
  match entries st !! p with
  | None => inl (not_found p st)
  | Some (File _) => inl (failure ENOTDIR "Not a directory" p)
  | Some (Dir _) => inr (children p (entries st))
  end.

(** [shutil.copy2(s, d)]: into [d] when [d] is a directory, onto [d]
    otherwise. *)
Definition copy2 (s d : Path) (st : t) : option os_error * t :=
  match entries st !! s with
  | None => (Some (not_found s st), st)
  | Some (Dir _) => (Some (failure EISDIR "Is a directory" s), st)
  | Some (File data) =>
      let target := if is_dir d st then d ++ [pathlib.name s] else d in
      if bool_decide (target = s) then
        (Some (OsError None "None" "None"), st)
      else
        match entries st !! target with
        | Some (Dir _) => (Some (failure EISDIR "Is a directory" target), st)
        | Some (File _) =>
            if read_only st then
              (Some (failure EROFS "Read-only file system" target), st)
            else (None, set_entries (<[target := File data]> (entries st)) st)
        | None =>
            match entries st !! removelast target with
            | None => (Some (not_found target st), st)
            | Some (File _) => (Some (failure ENOTDIR "Not a directory" target), st)
            | Some (Dir _) =>
                match check_write target st with
                | Some e => (Some e, st)
                | None =>
                    (None, set_entries (<[target := File data]> (entries st)) st)
                end
            end
        end
  end.

Definition platform : Platform := {|
  FS := t;
  os_exists := exists_;
  os_is_file := is_file;
  os_mkdir := mkdir;
  os_rmdir := rmdir;
  os_iterdir := iterdir;
  os_unlink := unlink;
  os_copy2 := copy2
|}.

(** Every entry other than the top directory lies in a directory, and the
    top directory is present. *)
Definition wf (m : gmap Path node) : Prop :=
  dir_at [] m = true ∧
  map_Forall (fun k _ => k ≠ [] → dir_at (removelast k) m = true) m.

(** What is left of [m] once the tree rooted at [p] is gone. *)
Definition purge (p : Path) (m : gmap Path node) : gmap Path node :=
  filter (fun kv => ¬ p `prefix_of` kv.1) m.

(** Every directory at or below [p] is writable. *)
Definition writable_below (p : Path) (m : gmap Path node) : Prop :=
  map_Forall (fun k n => p `prefix_of` k → n ≠ Dir false) m.

(** No entry at or below [p] is [n] or more levels below [p]. *)
Definition height_below (p : Path) (n : nat) (m : gmap Path node) : Prop :=
  map_Forall (fun k _ => p `prefix_of` k → length k < length p + n) m.

#[global] Instance wf_dec m : Decision (wf m).
Proof. unfold wf. apply _. Defined.

#[global] Instance writable_below_dec p m : Decision (writable_below p m).
Proof. unfold writable_below. apply _. Defined.

#[global] Instance height_below_dec p n m : Decision (height_below p n m).
Proof. unfold height_below. apply _. Defined.

(** A small tree: [src.txt], an empty writable directory [out], a directory
    [locked] without write permission, and [tree] holding a file and a
    subdirectory with a file of its own. *)
Definition sample : t :=
  Mk (list_to_map
        [ ([], Dir true);
          (["src.txt"], File "hello");
          (["out"], Dir true);
          (["locked"], Dir false);
          (["tree"], Dir true);
          (["tree"; "a.txt"], File "a");
          (["tree"; "sub"], Dir true);
          (["tree"; "sub"; "b.txt"], File "b") ])
     false.

Definition sample_read_only : t := Mk (entries sample) true.

End PosixFS.

(** ** Vocabulary for the statements *)

Import FileHandle.

Section Vocabulary.
Context {P : Platform}.

(** The world after the calls [cs], with filesystem [f] and log [l]. *)
Definition after (w : world) (f : FS) (l : list string) (cs : list call) : world :=
  World f l (calls w ++ cs).

(** What [transfer] does with the outcome of the strategy: the returned value
    is dropped. *)
Definition discard (r : outcome pyval * world) : outcome pyval * world :=
  match r with
  | (Return _, w) => (Return PyNone, w)
  | r => r
  end.

Definition is_mkdir (c : call) : bool :=
  match c with
  | CMkdir _ => true
  | _ => false
  end.

Definition start (f : FS) : world := World f [] [].

End Vocabulary.

(** [remove_directory] with [fuel], run on the concrete platform with a
    writable mount, removes the tree of any directory [p] other than the top
    one: it returns [True] and leaves the entries that are not at or below
    [p]; its first and its last call are [p.rmdir()]. *)
Definition removes_tree (fuel : nat) : Prop :=
  ∀ (p : Path) (m : gmap Path PosixFS.node) (l : list string) (cs : list call),
    PosixFS.wf m → p ≠ [] → PosixFS.dir_at p m = true →
    m !! removelast p = Some (PosixFS.Dir true) →
    PosixFS.writable_below p m → PosixFS.height_below p fuel m →
    ∃ tr,
      remove_directory (P := PosixFS.platform) fuel p
        (@World PosixFS.platform (PosixFS.Mk m false) l cs)
      = (Return (PyBool true),
         @World PosixFS.platform (PosixFS.Mk (PosixFS.purge p m) false) l
           (cs ++ tr)) ∧
      head tr = Some (CRmdir p) ∧ last tr = Some (CRmdir p).


(** ** Two more platforms to run the methods on *)

(** The sample tree with a file inside the directory that has no write
    permission. *)
Definition sample_locked : PosixFS.t :=
  PosixFS.Mk (<[ ["locked"; "secret.txt"] := PosixFS.File "s" ]>
                (PosixFS.entries PosixFS.sample))
             false.

(** A directory that cannot be removed although its listing is empty (say,
    another process keeps refilling it): [rmdir] always reports
    [ENOTEMPTY], [iterdir] always reports no entries. *)
Definition busy : Platform := {|
  FS := unit;
  os_exists := fun _ _ => true;
  os_is_file := fun _ _ => false;
  os_mkdir := fun _ f => (None, f);
  os_rmdir := fun p f =>
    (Some (OsError (Some ENOTEMPTY) "Directory not empty" (pathlib.str p)), f);
  os_iterdir := fun _ _ => inr [];
  os_unlink := fun _ f => (None, f);
  os_copy2 := fun _ _ f => (None, f)
|}.


(** * Properties *)

Section Properties.
Context {P : Platform}.
Implicit Types (w : world) (source destination path : Path)
  (copy_func : copy_strategy).

Ltac unfold_py :=
  unfold transfer, validate_paths, make_directory, copy, create_backup,
    upload, download, invoke, exists_, is_file, mkdir, rmdir, unlink, copy2,
    iterdir, with_suffix, except_OSError, try_except, bind, ret, raise,
    query, command, logging_error, called, set_fs, after, discard in *;
  simpl in *.

Ltac mkdir_among :=
  let p := fresh "p" in let Hp := fresh "Hp" in
  intros p Hp%list_elem_of_In; simpl in Hp;
  intuition (try discriminate); congruence.

Lemma make_directory_created path w f :
  os_mkdir path (fs w) = (None, f) →
  make_directory path w = (Return (PyBool true), after w f (log w) [CMkdir path]).
Proof. intros H. unfold_py. by rewrite H. Qed.

Lemma make_directory_failed path w e f :
  os_mkdir path (fs w) = (Some e, f) →
  make_directory path w =
    if errno_is e EACCES
    then (Return PyNone, after w f (log w) [CMkdir path])
    else (Raise (Error PermissionDeniedError (describe e) None),
          after w f (log w ++ [describe e]) [CMkdir path]).
Proof.
  intros H. unfold_py. rewrite H. simpl.
  destruct (errno_is e EACCES) eqn:Hacc; simpl; [|done].
  unfold errno_is in *. apply bool_decide_eq_true in Hacc.
  rewrite Hacc. by rewrite bool_decide_eq_false_2.
Qed.

(** C1, as the code has it: whatever [OSError] the underlying [mkdir]
    raises, [make_directory] raises [PermissionDeniedError] unless the errno
    is [EACCES], in which case it raises nothing and returns [None].  It
    never raises [ReadOnlyError] (not even for [EROFS]) and never lets the
    [OSError] through. *)
Theorem make_directory_classification path w e f :
  os_mkdir path (fs w) = (Some e, f) →
  (errno e = Some EACCES →
     make_directory path w = (Return PyNone, after w f (log w) [CMkdir path])) ∧
  (errno e ≠ Some EACCES →
     make_directory path w =
       (Raise (Error PermissionDeniedError (describe e) None),
        after w f (log w ++ [describe e]) [CMkdir path])) ∧
  (∀ x w', make_directory path w = (Raise x, w') →
     class_of x = Some PermissionDeniedError).
Proof.
  intros H. rewrite (make_directory_failed _ _ _ _ H). unfold errno_is.
  case_bool_decide as Hacc; (split; [|split]); try done.
  intros x w' [= <- _]. done.
Qed.

Lemma validate_paths_run source destination w :
  validate_paths source destination w =
    if os_exists source (fs w) then
      if os_exists destination (fs w) then
        (Return PyNone, after w (fs w) (log w) [CExists source; CExists destination])
      else
        (Raise (Error DestinationNotValidError
                  (pathlib.str destination +:+ " does not exist.") None),
         after w (fs w) (log w) [CExists source; CExists destination])
    else
      (Raise (Error SourceNotValidError
                (pathlib.str source +:+ " does not exist.") None),
       after w (fs w) (log w) [CExists source]).
Proof.
  unfold_py. destruct (os_exists source (fs w)); simpl; [|done].
  destruct (os_exists destination (fs w)); simpl; by rewrite <- app_assoc.
Qed.

(** C2: [validate_paths] raises [SourceNotValidError] whenever the source does
    not exist, after the single call [source.exists()] (the destination is
    not looked at); it raises [DestinationNotValidError] exactly when the
    source exists and the destination does not; and when both exist it
    returns [None], leaving filesystem and log as they were. *)
Theorem validate_paths_short_circuit source destination w :
  (os_exists source (fs w) = false →
     validate_paths source destination w =
       (Raise (Error SourceNotValidError
                 (pathlib.str source +:+ " does not exist.") None),
        after w (fs w) (log w) [CExists source])) ∧
  (∀ e w', validate_paths source destination w = (Raise e, w') →
     class_of e = Some DestinationNotValidError →
     os_exists source (fs w) = true ∧ os_exists destination (fs w) = false) ∧
  (os_exists source (fs w) = true → os_exists destination (fs w) = false →
     validate_paths source destination w =
       (Raise (Error DestinationNotValidError
                 (pathlib.str destination +:+ " does not exist.") None),
        after w (fs w) (log w) [CExists source; CExists destination])) ∧
  (os_exists source (fs w) = true → os_exists destination (fs w) = true →
     validate_paths source destination w =
       (Return PyNone,
        after w (fs w) (log w) [CExists source; CExists destination])).
Proof.
  rewrite validate_paths_run.
  destruct (os_exists source (fs w)), (os_exists destination (fs w));
    (split; [|split; [|split]]); try done; by intros ? ? [= <- _].
Qed.

(** C3: when the source does not exist, [transfer] raises
    [SourceNotValidError] (chained from the one [validate_paths] raised).
    The outcome is the same for every copy strategy, the filesystem is
    untouched, and the only call made is [source.exists()]: the strategy is
    not invoked. *)
Theorem transfer_source_missing source destination copy_func w :
  os_exists source (fs w) = false →
  transfer source destination copy_func w =
    (Raise (Error SourceNotValidError ""
              (Some (Error SourceNotValidError
                       (pathlib.str source +:+ " does not exist.") None))),
     after w (fs w) (log w) [CExists source]).
Proof.
  intros H. unfold transfer, bind, try_except.
  rewrite validate_paths_run, H. done.
Qed.

(** The part of [transfer] that runs before the strategy: validation and, if
    the destination is missing, its creation. *)
Lemma transfer_run source destination copy_func w :
  transfer source destination copy_func w =
    if os_exists source (fs w) then
      if os_exists destination (fs w) then
        discard (copy_func source destination
          (after w (fs w) (log w)
             [CExists source; CExists destination;
              CCopyFunc source destination]))
      else
        match os_mkdir destination (fs w) with
        | (None, f) =>
            discard (copy_func source destination
              (after w f (log w)
                 [CExists source; CExists destination; CMkdir destination;
                  CCopyFunc source destination]))
        | (Some e, f) =>
            if errno_is e EACCES then
              discard (copy_func source destination
                (after w f (log w)
                   [CExists source; CExists destination; CMkdir destination;
                    CCopyFunc source destination]))
            else
              (Raise (Error DestinationNotValidError ""
                        (Some (Error PermissionDeniedError (describe e) None))),
               after w f (log w ++ [describe e])
                 [CExists source; CExists destination; CMkdir destination])
        end
    else
      (Raise (Error SourceNotValidError ""
                (Some (Error SourceNotValidError
                         (pathlib.str source +:+ " does not exist.") None))),
       after w (fs w) (log w) [CExists source]).
Proof.
  unfold transfer, bind, try_except, invoke.
  rewrite validate_paths_run.
  destruct (os_exists source (fs w)); [|done].
  destruct (os_exists destination (fs w)); simpl.
  { unfold after, called, discard, ret; simpl. rewrite <- app_assoc. simpl.
    by destruct (copy_func _ _ _) as [[]]. }
  destruct (os_mkdir destination (fs w)) as [[e|] f] eqn:Hmk.
  - erewrite make_directory_failed by (simpl; exact Hmk).
    destruct (errno_is e EACCES); simpl.
    + unfold after, called, discard, ret; simpl. rewrite <- !app_assoc. simpl.
      by destruct (copy_func _ _ _) as [[]].
    + unfold after, raise; simpl. by rewrite <- !app_assoc.
  - erewrite make_directory_created by (simpl; exact Hmk). simpl.
    unfold after, called, discard, ret; simpl. rewrite <- !app_assoc. simpl.
    by destruct (copy_func _ _ _) as [[]].
Qed.

(** C4: when the source exists, the destination does not, and creating the
    destination succeeds, [transfer] has made exactly the calls
    [source.exists()], [destination.exists()], [destination.mkdir(...)] when
    it invokes the strategy on the original pair, in the filesystem that
    [mkdir] left; if the strategy returns, [transfer] returns (with [None]). *)
Theorem transfer_creates_destination source destination copy_func w f :
  os_exists source (fs w) = true →
  os_exists destination (fs w) = false →
  os_mkdir destination (fs w) = (None, f) →
  let w1 := after w f (log w)
              [CExists source; CExists destination; CMkdir destination;
               CCopyFunc source destination] in
  transfer source destination copy_func w
    = discard (copy_func source destination w1) ∧
  (∀ v w2, copy_func source destination w1 = (Return v, w2) →
     transfer source destination copy_func w = (Return PyNone, w2)).
Proof.
  intros Hs Hd Hmk w1. rewrite transfer_run, Hs, Hd, Hmk. split; [done|].
  intros v w2 Hcopy. subst w1. by rewrite Hcopy.
Qed.

(** C5, as the code has it: when the source exists, the destination does
    not and the [mkdir] of the destination fails, the errno alone decides.
    For [EACCES], the failure for lack of permission, [transfer] raises
    nothing of its own: [make_directory] has returned [None] and the strategy
    is invoked.  For every other errno, [EROFS] included, it raises
    [DestinationNotValidError] whose [__cause__] is a
    [PermissionDeniedError].  The [ReadOnlyError] half of the [except] clause
    is never taken: [make_directory] does not raise [ReadOnlyError]. *)
Theorem transfer_creation_failure_outcome source destination copy_func w err f :
  os_exists source (fs w) = true →
  os_exists destination (fs w) = false →
  os_mkdir destination (fs w) = (Some err, f) →
  (errno err = Some EACCES →
     transfer source destination copy_func w
       = discard (copy_func source destination
                    (after w f (log w)
                       [CExists source; CExists destination;
                        CMkdir destination; CCopyFunc source destination]))) ∧
  (errno err ≠ Some EACCES →
     transfer source destination copy_func w
       = (Raise (Error DestinationNotValidError ""
                   (Some (Error PermissionDeniedError (describe err) None))),
          after w f (log w ++ [describe err])
            [CExists source; CExists destination; CMkdir destination])) ∧
  (∀ path w0 e w1,
     make_directory path w0 = (Raise e, w1) →
     class_of e ≠ Some ReadOnlyError).
Proof.
  intros Hs Hd Hmk. rewrite transfer_run, Hs, Hd, Hmk. unfold errno_is.
  split_and!.
  - intros Hacc. by rewrite bool_decide_eq_true_2.
  - intros Hacc. by rewrite bool_decide_eq_false_2.
  - intros path w0 e w1.
    destruct (os_mkdir path (fs w0)) as [[err0|] f0] eqn:Hmk0.
    + rewrite (make_directory_failed _ _ _ _ Hmk0).
      destruct (errno_is err0 EACCES); [done|]. by intros [= <- _].
    + by rewrite (make_directory_created _ _ _ Hmk0).
Qed.

(** C8: [upload] and [download] are the same function of their arguments and
    of the world: each runs [transfer] and, if that returns, returns [True];
    if [transfer] raises, so do both, with the same exception. *)
Theorem upload_download_identical source destination copy_func w :
  upload source destination copy_func w = download source destination copy_func w ∧
  upload source destination copy_func w =
    match transfer source destination copy_func w with
    | (Return _, w') => (Return (PyBool true), w')
    | (Raise e, w') => (Raise e, w')
    | (OutOfFuel, w') => (OutOfFuel, w')
    end.
Proof. split; [done|]. unfold upload, bind, ret. by destruct (transfer _ _ _ _) as [[]]. Qed.

(** C9: the calls [transfer] makes before it either raises or hands over to
    the strategy do not depend on the strategy; they contain at most one
    [mkdir], which is on the destination and only occurs when the source
    exists and the destination does not; when both exist there is none. *)
Theorem transfer_mkdir_at_most_once source destination w :
  ∃ pre : list call,
    length (filter is_mkdir pre) ≤ 1 ∧
    (∀ p, CMkdir p ∈ pre →
       p = destination ∧
       os_exists source (fs w) = true ∧ os_exists destination (fs w) = false) ∧
    (os_exists source (fs w) = true → os_exists destination (fs w) = true →
       filter is_mkdir pre = []) ∧
    ∀ copy_func,
      (∃ e f l, transfer source destination copy_func w
                = (Raise e, after w f l pre)) ∨
      (∃ f l, transfer source destination copy_func w
              = discard (copy_func source destination
                           (after w f l (pre ++ [CCopyFunc source destination])))).
Proof.
  destruct (os_exists source (fs w)) eqn:Hs; last first.
  { exists [CExists source]. split_and!; [simpl; lia | mkdir_among | done |].
    intros cf. left. rewrite transfer_run, Hs. eauto. }
  destruct (os_exists destination (fs w)) eqn:Hd.
  { exists [CExists source; CExists destination].
    split_and!; [simpl; lia | mkdir_among | done |].
    intros cf. right. rewrite transfer_run, Hs, Hd. eauto. }
  exists [CExists source; CExists destination; CMkdir destination].
  split_and!; [simpl; lia | mkdir_among | done |].
  intros cf. rewrite transfer_run, Hs, Hd.
  destruct (os_mkdir destination (fs w)) as [[e|] f].
  - destruct (errno_is e EACCES); [right|left]; eauto.
  - right; eauto.
Qed.

(** C10: when the underlying [mkdir] fails with errno [EACCES],
    [make_directory] raises nothing and returns [None]; a [transfer] whose
    destination is missing and cannot be created for that reason goes on to
    invoke the strategy, in a filesystem where the destination still does
    not exist. *)
Theorem transfer_copies_after_eacces source destination copy_func w e f :
  os_exists source (fs w) = true →
  os_exists destination (fs w) = false →
  os_mkdir destination (fs w) = (Some e, f) →
  errno e = Some EACCES →
  os_exists destination f = false →
  let w1 := after w f (log w)
              [CExists source; CExists destination; CMkdir destination;
               CCopyFunc source destination] in
  make_directory destination w
    = (Return PyNone, after w f (log w) [CMkdir destination]) ∧
  os_exists destination (fs w1) = false ∧
  transfer source destination copy_func w
    = discard (copy_func source destination w1).
Proof.
  intros Hs Hd Hmk Hacc Hd' w1.
  assert (errno_is e EACCES = true) as Hb by by apply bool_decide_eq_true.
  split; [|split]; [|done|].
  - by rewrite (make_directory_failed _ _ _ _ Hmk), Hb.
  - by rewrite transfer_run, Hs, Hd, Hmk, Hb.
Qed.

End Properties.

(** ** Strings and suffixes *)

Lemma string_length_app (s1 s2 : string) :
  String.length (s1 +:+ s2) = String.length s1 + String.length s2.
Proof. induction s1 as [|c s1 IH]; simpl; [done|]. by rewrite IH. Qed.

Lemma substring_all (s : string) : String.substring 0 (String.length s) s = s.
Proof. induction s as [|c s IH]; simpl; [done|]. by rewrite IH. Qed.

Lemma substring_app_l (s1 s2 : string) :
  String.substring 0 (String.length s1) (s1 +:+ s2) = s1.
Proof.
  induction s1 as [|c s1 IH]; simpl; [by destruct s2|]. by rewrite IH.
Qed.

Lemma substring_app_r (s1 s2 : string) :
  String.substring (String.length s1) (String.length s2) (s1 +:+ s2) = s2.
Proof. induction s1 as [|c s1 IH]; simpl; [apply substring_all | done]. Qed.

Lemma rfind_dot_none (s : string) :
  pathlib.contains_char "." s = false → pathlib.rfind_dot s = None.
Proof.
  induction s as [|c s IH]; simpl; [done|].
  intros [Hc Hs]%orb_false_elim. rewrite (IH Hs).
  apply bool_decide_eq_false in Hc.
  rewrite bool_decide_eq_false_2; [done | congruence].
Qed.

Lemma rfind_dot_last (stem ext : string) :
  pathlib.contains_char "." ext = false →
  pathlib.rfind_dot (stem +:+ String "." ext) = Some (String.length stem).
Proof.
  intros Hext. induction stem as [|c stem IH]; simpl.
  - by rewrite (rfind_dot_none _ Hext).
  - by rewrite IH.
Qed.

Lemma name_snoc (dir : Path) (n : string) :
  pathlib.is_root n = false → n ≠ "" → pathlib.name (dir ++ [n]) = n.
Proof.
  intros Hroot Hn. unfold pathlib.name.
  rewrite bool_decide_eq_false_2.
  - by rewrite last_last.
  - rewrite length_app. simpl. destruct dir as [|r dir]; simpl.
    + rewrite Hroot. lia.
    + destruct (pathlib.is_root r); lia.
Qed.

(** A name of three characters or more is not a root. *)
Lemma long_name_not_root (n : string) :
  2 < String.length n → pathlib.is_root n = false ∧ n ≠ "".
Proof.
  intros Hlen. split; [|by intros ->; simpl in Hlen; lia].
  unfold pathlib.is_root.
  rewrite !bool_decide_eq_false_2; [done|..];
    intros ->; simpl in Hlen; lia.
Qed.

Lemma extension_name_long (stem ext : string) :
  stem ≠ "" → ext ≠ "" → 2 < String.length (stem +:+ String "." ext).
Proof.
  intros Hstem Hext. rewrite string_length_app. simpl.
  destruct stem; [done|]. destruct ext; [done|]. simpl. lia.
Qed.

(** A name [stem.ext] has suffix [.ext]. *)
Lemma suffix_of_extension (dir : Path) (stem ext : string) :
  stem ≠ "" → ext ≠ "" → pathlib.contains_char "." ext = false →
  pathlib.suffix (dir ++ [stem +:+ String "." ext]) = String "." ext.
Proof.
  intros Hstem Hext Hdots. unfold pathlib.suffix.
  destruct (long_name_not_root _ (extension_name_long _ _ Hstem Hext)).
  rewrite name_snoc by done.
  rewrite rfind_dot_last by done.
  rewrite string_length_app. simpl.
  rewrite !bool_decide_eq_true_2; simpl.
  - replace (String.length stem + S (String.length ext) - String.length stem)
      with (String.length (String "." ext)) by (simpl; lia).
    apply substring_app_r.
  - destruct ext; [done | simpl; lia].
  - destruct stem; [done | simpl; lia].
Qed.

(** A name without a dot has no suffix, and [with_suffix(".bak")] appends
    to it. *)
Lemma with_suffix_appends (dir : Path) (n : string) :
  n ≠ "" → pathlib.is_root n = false → pathlib.contains_char "." n = false →
  pathlib.with_suffix (dir ++ [n]) ".bak" = inl (dir ++ [n +:+ ".bak"]).
Proof.
  intros Hn Hroot Hdots. unfold pathlib.with_suffix, pathlib.suffix. simpl.
  rewrite name_snoc by done. rewrite rfind_dot_none by done.
  rewrite bool_decide_eq_false_2 by done. simpl.
  by rewrite removelast_last.
Qed.

(** [with_suffix(".bak")] replaces the extension of a name [stem.ext]. *)
Lemma with_suffix_replaces_extension (dir : Path) (stem ext : string) :
  stem ≠ "" → ext ≠ "" → pathlib.contains_char "." ext = false →
  pathlib.with_suffix (dir ++ [stem +:+ String "." ext]) ".bak"
    = inl (dir ++ [stem +:+ ".bak"]).
Proof.
  intros Hstem Hext Hdots. unfold pathlib.with_suffix. simpl.
  rewrite suffix_of_extension by done.
  destruct (long_name_not_root _ (extension_name_long _ _ Hstem Hext)).
  rewrite name_snoc by done.
  rewrite bool_decide_eq_false_2 by done.
  rewrite bool_decide_eq_false_2 by done.
  rewrite removelast_last, string_length_app.
  replace (String.length stem + String.length (String "." ext)
           - String.length (String "." ext)) with (String.length stem) by lia.
  by rewrite substring_app_l.
Qed.

Section Backup.
Context {P : Platform}.
Implicit Types (w : world) (path : Path).

Lemma copy_run source destination w :
  copy source destination w =
    match os_copy2 source destination (fs w) with
    | (None, f) =>
        (Return (PyBool true), after w f (log w) [CCopy2 source destination])
    | (Some e, f) =>
        (Raise (OSError e),
         after w f (log w ++ [describe e]) [CCopy2 source destination])
    end.
Proof.
  unfold copy, copy2, command, try_except, bind, ret, except_OSError,
    logging_error, raise, after, set_fs, called.
  by destruct (os_copy2 source destination (fs w)) as [[e|] f].
Qed.

Lemma create_backup_run path w :
  create_backup path w =
    match pathlib.with_suffix path ".bak" with
    | inl backup_path =>
        match os_copy2 path backup_path (fs w) with
        | (None, f) =>
            (Return (PyPath backup_path),
             after w f (log w) [CCopy2 path backup_path])
        | (Some e, f) =>
            (Raise (OSError e),
             after w f (log w ++ [describe e; describe e])
               [CCopy2 path backup_path])
        end
    | inr msg => (Raise (ValueError msg), w)
    end.
Proof.
  unfold create_backup, with_suffix, try_except, bind.
  destruct (pathlib.with_suffix path ".bak") as [backup_path|msg]; [|done].
  unfold ret at 1. rewrite copy_run.
  destruct (os_copy2 path backup_path (fs w)) as [[e|] f]; [|done].
  unfold except_OSError, logging_error, raise, after, bind, ret. simpl.
  by rewrite <- app_assoc.
Qed.

(** C6: [create_backup] computes the backup path with
    [path.with_suffix(".bak")], makes the single call
    [shutil.copy2(path, backup_path)], and returns the backup path itself (a
    path, not a boolean) when the copy succeeds; for a name [stem.ext] the
    backup path is the same path with the name [stem.bak].  When the copy
    raises an [OSError], [create_backup] raises that same [OSError] (logged
    once by [copy] and once by [create_backup]).  A path with an empty name
    has no backup path: [with_suffix] raises [ValueError] and nothing is
    copied. *)
Theorem create_backup_returns_backup_path :
  (∀ (dir : Path) (stem ext : string) w f,
     stem ≠ "" → ext ≠ "" → pathlib.contains_char "." ext = false →
     let path := dir ++ [stem +:+ String "." ext] in
     let backup_path := dir ++ [stem +:+ ".bak"] in
     os_copy2 path backup_path (fs w) = (None, f) →
     create_backup path w =
       (Return (PyPath backup_path), after w f (log w) [CCopy2 path backup_path])) ∧
  (∀ path w,
     match pathlib.with_suffix path ".bak" with
     | inl backup_path =>
         match os_copy2 path backup_path (fs w) with
         | (None, f) =>
             create_backup path w =
               (Return (PyPath backup_path),
                after w f (log w) [CCopy2 path backup_path])
         | (Some e, f) =>
             create_backup path w =
               (Raise (OSError e),
                after w f (log w ++ [describe e; describe e])
                  [CCopy2 path backup_path])
         end
     | inr msg => create_backup path w = (Raise (ValueError msg), w)
     end).
Proof.
  split.
  - intros dir stem ext w f Hstem Hext Hdots path backup_path Hcopy.
    rewrite create_backup_run. subst path backup_path.
    rewrite with_suffix_replaces_extension by done. by rewrite Hcopy.
  - intros path w. rewrite create_backup_run.
    destruct (pathlib.with_suffix path ".bak") as [backup_path|msg]; [|done].
    by destruct (os_copy2 path backup_path (fs w)) as [[e|] f].
Qed.

End Backup.

(** ** Trees of the concrete platform *)

Section Trees.
Import PosixFS.
Implicit Types (m : gmap Path node) (p c k : Path).

Lemma child_snoc c p : c ≠ [] → removelast c = p → ∃ x, c = p ++ [x].
Proof.
  intros Hc <-. destruct (exists_last Hc) as (q & x & ->).
  exists x. by rewrite removelast_last.
Qed.

Lemma dir_at_true p m : dir_at p m = true ↔ ∃ w, m !! p = Some (Dir w).
Proof.
  unfold dir_at. split.
  - destruct (m !! p) as [[|w]|]; [done|eauto|done].
  - by intros [w ->].
Qed.

Lemma wf_parent m p (x : string) :
  wf m → is_Some (m !! (p ++ [x])) → ∃ w, m !! p = Some (Dir w).
Proof.
  intros [_ Hwf] [n Hn]. specialize (Hwf _ _ Hn). cbv beta in Hwf.
  rewrite removelast_last in Hwf. apply dir_at_true, Hwf. by destruct p.
Qed.

Lemma wf_ancestor m p q :
  wf m → is_Some (m !! (p ++ q)) → q ≠ [] → ∃ w, m !! p = Some (Dir w).
Proof.
  intros Hwf. induction q as [|x q IH] using rev_ind; [done|].
  intros Hq _. rewrite app_assoc in Hq.
  destruct (wf_parent _ _ _ Hwf Hq) as [w Hw].
  destruct q as [|y q]; [by rewrite app_nil_r in Hw; eauto|].
  apply IH; [by rewrite Hw|done].
Qed.

Lemma wf_first_step m p (x : string) q :
  wf m → is_Some (m !! (p ++ x :: q)) → is_Some (m !! (p ++ [x])).
Proof.
  intros Hwf Hk. destruct q as [|y q]; [done|].
  replace (p ++ x :: y :: q) with ((p ++ [x]) ++ y :: q) in Hk
    by by rewrite <- app_assoc.
  destruct (wf_ancestor _ _ _ Hwf Hk) as [w ->]; [done|eauto].
Qed.

Lemma elem_of_children c p m :
  c ∈ children p m ↔ is_Some (m !! c) ∧ c ≠ [] ∧ removelast c = p.
Proof.
  unfold children. rewrite list_elem_of_filter, list_elem_of_fmap. split.
  - intros [[Hc Hp] ([k n] & -> & Hkn%elem_of_map_to_list)]. eauto.
  - intros ([n Hn] & Hc & Hp). split; [done|].
    exists (c, n). split; [done|]. by apply elem_of_map_to_list.
Qed.

Lemma NoDup_children p m : NoDup (children p m).
Proof. apply NoDup_filter, NoDup_fst_map_to_list. Qed.

Lemma purge_lookup_below p m k : p `prefix_of` k → purge p m !! k = None.
Proof. intros Hpk. apply map_lookup_filter_None. right. intros n _ []. done. Qed.

Lemma purge_lookup_other p m k : ¬ p `prefix_of` k → purge p m !! k = m !! k.
Proof.
  intros Hpk. destruct (m !! k) as [n|] eqn:Hk.
  - by apply map_lookup_filter_Some.
  - apply map_lookup_filter_None. by left.
Qed.

Lemma purge_lookup_Some p m k n : purge p m !! k = Some n → m !! k = Some n.
Proof. by intros [? _]%map_lookup_filter_Some. Qed.

Lemma removelast_prefix k : removelast k `prefix_of` k.
Proof.
  destruct (decide (k = [])) as [->|Hk]; [done|].
  destruct (exists_last Hk) as (q & x & ->).
  rewrite removelast_last. by apply prefix_app_r.
Qed.

Lemma wf_purge c m : c ≠ [] → wf m → wf (purge c m).
Proof.
  intros Hc [Hroot Hwf]. split.
  - unfold dir_at. rewrite purge_lookup_other; [done|].
    by intros ->%prefix_nil_inv.
  - intros k n [Hk Hck]%map_lookup_filter_Some Hne. simpl in Hck.
    specialize (Hwf _ _ Hk Hne). unfold dir_at in *.
    rewrite purge_lookup_other; [done|].
    intros Hpre. apply Hck. etrans; [done|]. apply removelast_prefix.
Qed.

(** Deleting a file, or a directory without entries, removes its tree. *)
Lemma delete_leaf c m :
  wf m → (∀ x, m !! (c ++ [x]) = None) → delete c m = purge c m.
Proof.
  intros Hwf Hleaf. apply map_eq. intros k.
  destruct (decide (c `prefix_of` k)) as [[q ->]|Hck].
  - rewrite purge_lookup_below by by apply prefix_app_r.
    destruct q as [|x q]; [by rewrite app_nil_r, lookup_delete_eq|].
    rewrite lookup_delete_ne.
    + apply eq_None_not_Some. intros Hk%wf_first_step; [|done].
      rewrite Hleaf in Hk. by destruct Hk.
    + intros Heq. apply (f_equal length) in Heq.
      rewrite length_app in Heq. simpl in Heq. lia.
  - rewrite purge_lookup_other by done. apply lookup_delete_ne.
    by intros ->.
Qed.

Lemma file_leaf c m data (x : string) :
  wf m → m !! c = Some (File data) → m !! (c ++ [x]) = None.
Proof.
  intros Hwf Hc. apply eq_None_not_Some. intros Hx.
  destruct (wf_parent _ _ _ Hwf Hx) as [w Hw]. congruence.
Qed.

Lemma no_children_leaf c m (x : string) :
  children c m = [] → m !! (c ++ [x]) = None.
Proof.
  intros Hnil. apply eq_None_not_Some. intros Hx.
  assert (c ++ [x] ∈ children c m) as Hin.
  { apply elem_of_children. split_and!; [done| by destruct c |].
    apply removelast_last. }
  rewrite Hnil in Hin. by apply elem_of_nil in Hin.
Qed.

(** Purging a list of trees, one after the other. *)
Lemma purge_list_None cs m k :
  m !! k = None → foldl (fun m c => purge c m) m cs !! k = None.
Proof.
  revert m. induction cs as [|c cs IH]; intros m Hk; simpl; [done|].
  apply IH. destruct (decide (c `prefix_of` k)).
  - by apply purge_lookup_below.
  - by rewrite purge_lookup_other.
Qed.

Lemma purge_list_below cs m c k :
  c ∈ cs → c `prefix_of` k → foldl (fun m c => purge c m) m cs !! k = None.
Proof.
  revert m. induction cs as [|c' cs IH]; intros m Hin Hck; simpl.
  - by apply elem_of_nil in Hin.
  - apply elem_of_cons in Hin as [<-|Hin].
    + apply purge_list_None. by apply purge_lookup_below.
    + by apply IH.
Qed.

Lemma purge_list_other cs m k :
  (∀ c, c ∈ cs → ¬ c `prefix_of` k) →
  foldl (fun m c => purge c m) m cs !! k = m !! k.
Proof.
  revert m. induction cs as [|c cs IH]; intros m Hcs; simpl; [done|].
  rewrite IH.
  - apply purge_lookup_other, Hcs. by left.
  - intros c' Hc'. apply Hcs. by right.
Qed.

(** Once the trees of all entries of [p] are gone, deleting [p] removes the
    tree of [p]. *)
Lemma delete_after_children p m :
  wf m →
  delete p (foldl (fun m c => purge c m) m (children p m)) = purge p m.
Proof.
  intros Hwf. apply map_eq. intros k.
  destruct (decide (p `prefix_of` k)) as [[q ->]|Hpk].
  - rewrite purge_lookup_below by by apply prefix_app_r.
    destruct q as [|x q]; [by rewrite app_nil_r, lookup_delete_eq|].
    rewrite lookup_delete_ne; last first.
    { intros Heq. apply (f_equal length) in Heq.
      rewrite length_app in Heq. simpl in Heq. lia. }
    destruct (m !! (p ++ x :: q)) as [n|] eqn:Hk;
      [|by apply purge_list_None].
    apply (purge_list_below _ _ (p ++ [x])).
    + apply elem_of_children. split_and!.
      * apply (wf_first_step _ _ _ q); [done|by rewrite Hk].
      * by destruct p.
      * apply removelast_last.
    + exists q. by rewrite <- app_assoc.
  - rewrite purge_lookup_other by done.
    rewrite lookup_delete_ne by by intros ->.
    apply purge_list_other. intros c [_ [Hc Hp]]%elem_of_children Hck.
    apply Hpk. subst p. etrans; [apply removelast_prefix|done].
Qed.

Lemma children_purged p m :
  children p (foldl (fun m c => purge c m) m (children p m)) = [].
Proof.
  destruct (children p (foldl _ _ _)) as [|c cs] eqn:Hcs; [done|].
  assert (c ∈ children p (foldl (fun m c => purge c m) m (children p m)))
    as [[n Hn] [Hc Hp]]%elem_of_children by (rewrite Hcs; by left).
  rewrite (purge_list_below _ _ c c) in Hn; [done| |done].
  apply elem_of_children. split_and!; [|done..].
  destruct (m !! c) eqn:Hm; [done|].
  by rewrite purge_list_None in Hn.
Qed.

End Trees.

Section TreeRemoval.
Import PosixFS.
#[local] Existing Instance platform.
Implicit Types (m : gmap Path node) (p c k : Path) (l : list string)
  (cs : list call).

Lemma writable_below_child p c m :
  removelast c = p → writable_below p m → writable_below c m.
Proof.
  intros <- Hw k n Hk Hck. apply (Hw _ _ Hk).
  etrans; [apply removelast_prefix|done].
Qed.

Lemma writable_below_purge p c m : writable_below p m → writable_below p (purge c m).
Proof. intros Hw k n Hk%purge_lookup_Some. by apply Hw. Qed.

Lemma height_below_purge p c n m : height_below p n m → height_below p n (purge c m).
Proof. intros Hh k x Hk%purge_lookup_Some. by apply (Hh _ _ Hk). Qed.

Lemma height_below_child p c n m :
  c ≠ [] → removelast c = p → height_below p (S n) m → height_below c n m.
Proof.
  intros Hc Hp Hh k x Hk Hck.
  destruct (child_snoc _ _ Hc Hp) as [y ->].
  assert (p `prefix_of` k) as Hpk by (etrans; [by apply prefix_app_r|done]).
  specialize (Hh _ _ Hk Hpk). rewrite length_app. simpl in *. lia.
Qed.

Lemma sibling_not_prefix c c' p :
  c ≠ [] → c' ≠ [] → removelast c = p → removelast c' = p → c ≠ c' →
  ¬ c `prefix_of` c'.
Proof.
  intros Hc Hc' Hp Hp' Hne Hpre.
  destruct (child_snoc _ _ Hc Hp) as [x ->].
  destruct (child_snoc _ _ Hc' Hp') as [y ->].
  apply Hne. apply prefix_length_eq; [done|]. rewrite !length_app. simpl. lia.
Qed.

Lemma child_not_prefix_parent c p q :
  c ≠ [] → removelast c = p → q `prefix_of` p → ¬ c `prefix_of` q.
Proof.
  intros Hc Hp Hq Hcq. destruct (child_snoc _ _ Hc Hp) as [x ->].
  apply prefix_length in Hq, Hcq. rewrite length_app in Hcq. simpl in *. lia.
Qed.

(** One turn of the loop over the children. *)
Lemma remove_child_tree n p c m l cs :
  removes_tree n →
  wf m → m !! p = Some (Dir true) → c ∈ children p m →
  writable_below p m → height_below p (S n) m →
  ∃ tr,
    (b <- FileHandle.is_file c ;;
     if b then FileHandle.unlink c else remove_directory n c)%py
      (World (Mk m false) l cs)
    = (Return (if PosixFS.is_file c (Mk m false) then PyNone else PyBool true),
       World (Mk (purge c m) false) l (cs ++ tr)).
Proof.
  intros IH Hwf Hp [[x Hx] [Hc Hcp]]%elem_of_children Hw Hh.
  unfold bind at 1, FileHandle.is_file, query, called. simpl.
  unfold PosixFS.is_file. simpl. rewrite Hx. destruct x as [data|wr].
  - exists [CIsFile c; CUnlink c].
    unfold FileHandle.unlink, command, called, set_fs. simpl.
    unfold PosixFS.unlink, check_write, set_entries. simpl. rewrite Hx, Hcp, Hp.
    rewrite (delete_leaf c m Hwf) by (intros y; by eapply file_leaf).
    by rewrite <- app_assoc.
  - destruct (IH c m l (cs ++ [CIsFile c])) as (tr & Htr & _); try done.
    + unfold dir_at. by rewrite Hx.
    + by rewrite Hcp.
    + by eapply writable_below_child.
    + by eapply height_below_child.
    + exists (CIsFile c :: tr). rewrite Htr. by rewrite <- app_assoc.
Qed.

Lemma for_each_children_tree n p todo : ∀ m l cs,
  removes_tree n →
  wf m → m !! p = Some (Dir true) → NoDup todo →
  (∀ c, c ∈ todo → c ∈ children p m) →
  writable_below p m → height_below p (S n) m →
  ∃ tr,
    for_each todo
      (fun child =>
         b <- FileHandle.is_file child ;;
         if b then FileHandle.unlink child else remove_directory n child)%py
      (World (Mk m false) l cs)
    = (Return PyNone,
       World (Mk (foldl (fun m c => purge c m) m todo) false) l (cs ++ tr)).
Proof.
  induction todo as [|c todo IHtodo]; intros m l cs IH Hwf Hp Hnd Hin Hw Hh.
  { exists []. simpl. unfold ret. by rewrite app_nil_r. }
  apply NoDup_cons in Hnd as [Hc Hnd].
  assert (c ∈ children p m) as Hcin by (apply Hin; by left).
  destruct (remove_child_tree n p c m l cs IH Hwf Hp Hcin Hw Hh) as [tr1 Htr1].
  apply elem_of_children in Hcin as [_ [Hcne Hcp]].
  destruct (IHtodo (purge c m) l (cs ++ tr1)) as [tr2 Htr2]; try done.
  - by apply wf_purge.
  - rewrite purge_lookup_other; [done|].
    by eapply child_not_prefix_parent.
  - intros c' Hc'. assert (c' ∈ children p m) as Hc'in by (apply Hin; by right).
    apply elem_of_children in Hc'in as [Hsome [Hne' Hp']].
    apply elem_of_children. split_and!; [|done..].
    rewrite purge_lookup_other; [done|].
    eapply sibling_not_prefix; try done. by intros ->.
  - by apply writable_below_purge.
  - by apply height_below_purge.
  - exists (tr1 ++ tr2). simpl. unfold bind at 1. rewrite Htr1.
    rewrite Htr2. by rewrite <- app_assoc.
Qed.

Lemma removes_tree_any fuel : removes_tree fuel.
Proof.
  induction fuel as [|n IH];
    intros p m l cs Hwf Hne [wr Hx]%dir_at_true Hparent Hw Hh.
  { specialize (Hh _ _ Hx (reflexivity p)). simpl in Hh. lia. }
  assert (wr = true) as ->.
  { specialize (Hw _ _ Hx (reflexivity p)). by destruct wr. }
  simpl. unfold try_except, bind at 1, FileHandle.rmdir, command, called, set_fs. simpl.
  unfold PosixFS.rmdir, check_write, set_entries. simpl.
  rewrite Hx, Hparent, bool_decide_eq_false_2 by done.
  destruct (children p m) as [|c0 todo] eqn:Hchildren.
  - exists [CRmdir p]. unfold ret.
    by rewrite (delete_leaf p m Hwf) by (intros y; by apply no_children_leaf).
  - clear c0 todo Hchildren. simpl.
    unfold bind at 1, FileHandle.iterdir, called. simpl.
    unfold PosixFS.iterdir. simpl. rewrite Hx.
    destruct (for_each_children_tree n p (children p m) m l
                (cs ++ [CRmdir p] ++ [CIterdir p])) as [tr Htr]; try done.
    { apply NoDup_children. }
    unfold bind at 1. rewrite <- app_assoc. rewrite Htr.
    exists ([CRmdir p] ++ [CIterdir p] ++ tr ++ [CRmdir p]).
    unfold bind, FileHandle.rmdir, command, called, set_fs, ret. simpl.
    unfold PosixFS.rmdir, check_write, set_entries. simpl.
    rewrite !purge_list_other, Hx, Hparent; first last.
    { intros c [_ [Hc Hcp]]%elem_of_children. by eapply child_not_prefix_parent. }
    { intros c [_ [Hc Hcp]]%elem_of_children.
      eapply child_not_prefix_parent; [done..|]. apply removelast_prefix. }
    rewrite children_purged, delete_after_children by done.
    split_and!; [by rewrite <- !app_assoc | done |].
    simpl. by rewrite !last_cons, last_snoc.
Qed.

End TreeRemoval.

Section Removal.
Context {P : Platform}.
Implicit Types (w : world) (path : Path).

(** The first attempt of [remove_directory]: [path.rmdir()]. *)
Lemma remove_directory_first_attempt fuel path w :
  remove_directory (S fuel) path w =
    match os_rmdir path (fs w) with
    | (None, f) => (Return (PyBool true), after w f (log w) [CRmdir path])
    | (Some e, f) =>
        if errno_is e ENOTEMPTY then
          (children <- iterdir path ;;
           for_each children (fun child =>
             b <- is_file child ;;
             if b then unlink child else remove_directory fuel child) ;;
           rmdir path ;;
           ret (PyBool true))%py (after w f (log w) [CRmdir path])
        else
          (Raise (OSError e), after w f (log w ++ [describe e]) [CRmdir path])
    end.
Proof.
  simpl. unfold try_except, bind at 1, rmdir at 1, command, ret at 1.
  destruct (os_rmdir path (fs w)) as [[e|] f]; [|done].
  unfold except_OSError. by destruct (errno_is e ENOTEMPTY).
Qed.

End Removal.

(** C7: [remove_directory] first calls [path.rmdir()].  If that succeeds it
    returns [True].  If it raises an [OSError] other than [ENOTEMPTY], the
    error is logged and raised again, and no other call is made.  On
    [ENOTEMPTY] it lists the directory, unlinks each child that is a file and
    calls itself on each other child, then calls [path.rmdir()] again.  (These
    three hold on every platform.)  On the concrete platform, with a writable
    mount, for a directory [p] whose tree is writable and less than [fuel]
    levels deep, it returns [True], the entries at or below [p] are gone and
    all others are as before, and both the first and the last call are
    [p.rmdir()]. *)
Theorem remove_directory_post_order :
  (∀ (P : Platform) (fuel : nat) (path : Path) (w : world),
     match os_rmdir path (fs w) with
     | (None, f) =>
         remove_directory (S fuel) path w
           = (Return (PyBool true), after w f (log w) [CRmdir path])
     | (Some e, f) =>
         (errno e ≠ Some ENOTEMPTY →
            remove_directory (S fuel) path w
              = (Raise (OSError e),
                 after w f (log w ++ [describe e]) [CRmdir path])) ∧
         (errno e = Some ENOTEMPTY →
            remove_directory (S fuel) path w
              = (children <- iterdir path ;;
                 for_each children (fun child =>
                   b <- is_file child ;;
                   if b then unlink child else remove_directory fuel child) ;;
                 rmdir path ;;
                 ret (PyBool true))%py (after w f (log w) [CRmdir path]))
     end) ∧
  (∀ (fuel : nat) (p : Path) (m : gmap Path PosixFS.node)
     (l : list string) (cs : list call),
     PosixFS.wf m → p ≠ [] → PosixFS.dir_at p m = true →
     m !! removelast p = Some (PosixFS.Dir true) →
     PosixFS.writable_below p m → PosixFS.height_below p fuel m →
     ∃ tr,
       remove_directory (P := PosixFS.platform) fuel p
         (@World PosixFS.platform (PosixFS.Mk m false) l cs)
       = (Return (PyBool true),
          @World PosixFS.platform (PosixFS.Mk (PosixFS.purge p m) false) l
            (cs ++ tr)) ∧
       head tr = Some (CRmdir p) ∧ last tr = Some (CRmdir p)).
Proof.
  split.
  - intros P fuel path w. rewrite remove_directory_first_attempt.
    destruct (os_rmdir path (fs w)) as [[e|] f]; [|done].
    unfold errno_is. case_bool_decide; by split.
  - intros fuel. apply removes_tree_any.
Qed.

(** * Further properties of the methods *)

(** A run is known once its outcome, filesystem, log and calls are. *)
Lemma outcome_and_world {P : Platform} {A} (r : outcome A * world) o w :
  r.1 = o → fs r.2 = fs w → log r.2 = log w → calls r.2 = calls w →
  r = (o, w).
Proof. destruct r as [o' [f l cs]], w. simpl. by intros -> -> -> ->. Qed.

Section Outcomes.
Context {P : Platform}.
Implicit Types (w : world) (source destination path : Path)
  (copy_func : copy_strategy).

(** X2: [transfer] returns only [None], and only after the strategy, invoked
    on the given pair, has returned; up to that invocation the log is
    untouched and the source existed. *)
Theorem transfer_return_origin source destination copy_func w v w' :
  transfer source destination copy_func w = (Return v, w') →
  v = PyNone ∧ os_exists source (fs w) = true ∧
  ∃ f pre v0,
    copy_func source destination
      (after w f (log w) (pre ++ [CCopyFunc source destination]))
    = (Return v0, w').
Proof.
  rewrite transfer_run.
  assert (∀ w1, discard (copy_func source destination w1) = (Return v, w') →
                v = PyNone ∧
                ∃ v0, copy_func source destination w1 = (Return v0, w'))
    as Hstrategy.
  { intros w1. unfold discard.
    destruct (copy_func source destination w1) as [[v0|x|] w2]; try done.
    intros [= <- <-]. eauto. }
  destruct (os_exists source (fs w)) eqn:Hs; [|done].
  destruct (os_exists destination (fs w)) eqn:Hd.
  { intros [-> [v0 H]]%Hstrategy. split_and!; [done..|].
    by exists (fs w), [CExists source; CExists destination], v0. }
  destruct (os_mkdir destination (fs w)) as [[err|] f] eqn:Hmk.
  - destruct (errno_is err EACCES); [|done].
    intros [-> [v0 H]]%Hstrategy. split_and!; [done..|].
    by exists f, [CExists source; CExists destination; CMkdir destination], v0.
  - intros [-> [v0 H]]%Hstrategy. split_and!; [done..|].
    by exists f, [CExists source; CExists destination; CMkdir destination], v0.
Qed.

(** X3: when the destination is missing and [mkdir] fails with any errno
    other than [EACCES] ([EROFS] included), [transfer] logs the error once
    and raises [DestinationNotValidError] whose cause is a
    [PermissionDeniedError]; the strategy is not invoked. *)
Theorem transfer_mkdir_failure source destination copy_func w err f :
  os_exists source (fs w) = true →
  os_exists destination (fs w) = false →
  os_mkdir destination (fs w) = (Some err, f) →
  errno err ≠ Some EACCES →
  transfer source destination copy_func w =
    (Raise (Error DestinationNotValidError ""
              (Some (Error PermissionDeniedError (describe err) None))),
     after w f (log w ++ [describe err])
       [CExists source; CExists destination; CMkdir destination]).
Proof.
  intros Hs Hd Hmk Hacc. rewrite transfer_run, Hs, Hd, Hmk.
  unfold errno_is. by rewrite bool_decide_eq_false_2.
Qed.

(** X5: [make_directory] returns [True] exactly when the underlying [mkdir]
    raised nothing; it has then made that one call and logged nothing. *)
Theorem make_directory_True_iff path w w' :
  make_directory path w = (Return (PyBool true), w') ↔
  ∃ f, os_mkdir path (fs w) = (None, f) ∧
       w' = after w f (log w) [CMkdir path].
Proof.
  split.
  - destruct (os_mkdir path (fs w)) as [[err|] f] eqn:Hmk.
    + rewrite (make_directory_failed _ _ _ _ Hmk).
      by destruct (errno_is err EACCES).
    + rewrite (make_directory_created _ _ _ Hmk). intros [= <-]. eauto.
  - intros (f & Hmk & ->). by apply make_directory_created.
Qed.

(** X6: with the default strategy [copy] and both paths present, [upload]
    and [download] make the calls [exists], [exists], [copy2] and nothing
    else; they return [True] when [copy2] succeeds, and when it fails they
    raise its [OSError] unchanged, logged once by [copy]. *)
Theorem upload_default_strategy source destination w :
  os_exists source (fs w) = true →
  os_exists destination (fs w) = true →
  let cs := [CExists source; CExists destination;
             CCopyFunc source destination; CCopy2 source destination] in
  upload source destination copy w
    = download source destination copy w ∧
  match os_copy2 source destination (fs w) with
  | (None, f) =>
      upload source destination copy w
        = (Return (PyBool true), after w f (log w) cs)
  | (Some err, f) =>
      upload source destination copy w
        = (Raise (OSError err), after w f (log w ++ [describe err]) cs)
  end.
Proof.
  intros Hs Hd cs. split; [done|].
  unfold upload, bind. rewrite transfer_run, Hs, Hd, copy_run. simpl.
  destruct (os_copy2 source destination (fs w)) as [[err|] f]; simpl;
    unfold after, ret; simpl; by rewrite <- !app_assoc.
Qed.

End Outcomes.

Section Recursion.
Context {P : Platform}.
Implicit Types (w : world) (path child : Path) (fuel : nat).

(** The loop stops at the first child whose turn does not return. *)
Lemma for_each_cons {A} (x : A) xs body w :
  for_each (x :: xs) body w =
    match body x w with
    | (Return _, w1) => for_each xs body w1
    | (Raise e, w1) => (Raise e, w1)
    | (OutOfFuel, w1) => (OutOfFuel, w1)
    end.
Proof. done. Qed.

Lemma for_each_return {A} (I : world → world → Prop) (xs : list A) body :
  (∀ w, I w w) →
  (∀ w1 w2 w3, I w1 w2 → I w2 w3 → I w1 w3) →
  (∀ x w v w', body x w = (Return v, w') → I w w') →
  ∀ w v w', for_each xs body w = (Return v, w') → I w w'.
Proof.
  intros Hrefl Htrans Hbody. induction xs as [|x xs IH]; intros w v w'.
  { intros [= _ <-]. apply Hrefl. }
  rewrite for_each_cons.
  destruct (body x w) as [[v1|e|] w1] eqn:Hx; [|done..].
  intros Hrest. eapply Htrans; [by eapply Hbody | by eapply IH].
Qed.

(** What is left of [remove_directory] after [rmdir] has said [ENOTEMPTY]. *)
Lemma fallback_run fuel path w :
  (children <- iterdir path ;;
   for_each children (fun child =>
     b <- is_file child ;;
     if b then unlink child else remove_directory fuel child) ;;
   rmdir path ;;
   ret (PyBool true)) w =
  match os_iterdir path (fs w) with
  | inl e => (Raise (OSError e), after w (fs w) (log w) [CIterdir path])
  | inr children =>
      match
        for_each children (fun child =>
          b <- is_file child ;;
          if b then unlink child else remove_directory fuel child)
          (after w (fs w) (log w) [CIterdir path])
      with
      | (Return _, w1) =>
          match os_rmdir path (fs w1) with
          | (None, f) =>
              (Return (PyBool true), after w1 f (log w1) [CRmdir path])
          | (Some e, f) =>
              (Raise (OSError e), after w1 f (log w1) [CRmdir path])
          end
      | (Raise e, w1) => (Raise e, w1)
      | (OutOfFuel, w1) => (OutOfFuel, w1)
      end
  end.
Proof.
  unfold bind at 1, iterdir, called, after.
  destruct (os_iterdir path (fs w)) as [e|children]; [done|].
  unfold bind at 1.
  destruct (for_each _ _ _) as [[v|e|] w1]; [|done..].
  unfold bind, rmdir, command, ret, called, set_fs. simpl.
  by destruct (os_rmdir path (fs w1)) as [[e|] f].
Qed.

(** One turn of the loop. *)
Lemma turn_run fuel child w :
  (b <- is_file child ;;
   if b then unlink child else remove_directory fuel child) w =
  if os_is_file child (fs w) then
    match os_unlink child (fs w) with
    | (None, f) =>
        (Return PyNone, after w f (log w) [CIsFile child; CUnlink child])
    | (Some e, f) =>
        (Raise (OSError e), after w f (log w) [CIsFile child; CUnlink child])
    end
  else remove_directory fuel child (after w (fs w) (log w) [CIsFile child]).
Proof.
  unfold bind, is_file, query, called, after. simpl.
  destruct (os_is_file child (fs w)); [|done].
  unfold unlink, command, called, set_fs. simpl.
  destruct (os_unlink child (fs w)) as [[e|] f]; by rewrite <- app_assoc.
Qed.

(** X8: whenever [remove_directory] returns, it returns [True] and nothing
    has been written to the log, at any depth of the recursion. *)
Theorem remove_directory_returns_True fuel path w v w' :
  remove_directory fuel path w = (Return v, w') →
  v = PyBool true ∧ log w' = log w.
Proof.
  revert path w v w'. induction fuel as [|fuel IH]; intros path w v w'; [done|].
  rewrite remove_directory_first_attempt.
  destruct (os_rmdir path (fs w)) as [[e|] f]; [|by intros [= <- <-]].
  destruct (errno_is e ENOTEMPTY); [|done].
  rewrite fallback_run. simpl.
  destruct (os_iterdir path f) as [e1|children]; [done|].
  destruct (for_each _ _ _) as [[v1|e1|] w1] eqn:Hloop; [|done..].
  assert (log w1 = log w) as Hlog.
  { apply (for_each_return (fun w1 w2 => log w2 = log w1)) in Hloop;
      [done|done|congruence|].
    intros child w2 v2 w3. rewrite turn_run.
    destruct (os_is_file child (fs w2)).
    - by destruct (os_unlink child (fs w2)) as [[e2|] f2]; intros [= _ <-].
    - intros [_ ->]%IH. done. }
  destruct (os_rmdir path (fs w1)) as [[e2|] f2]; [done|].
  intros [= <- <-]. done.
Qed.

(** X11: in the fallback after [ENOTEMPTY], a child file that cannot be
    unlinked ends the call at once: the [OSError] of [unlink] is raised as it
    is and, unlike an error of the first [rmdir], is not logged; the
    remaining children are not visited and the directory is not removed. *)
Theorem remove_directory_unlink_failure fuel path w e0 f0 child rest e f :
  os_rmdir path (fs w) = (Some e0, f0) →
  errno e0 = Some ENOTEMPTY →
  os_iterdir path f0 = inr (child :: rest) →
  os_is_file child f0 = true →
  os_unlink child f0 = (Some e, f) →
  remove_directory (S fuel) path w =
    (Raise (OSError e),
     after w f (log w)
       [CRmdir path; CIterdir path; CIsFile child; CUnlink child]).
Proof.
  intros Hrm Hne Hit Hfile Hun.
  rewrite remove_directory_first_attempt, Hrm.
  unfold errno_is. rewrite bool_decide_eq_true_2 by done.
  rewrite fallback_run. simpl. rewrite Hit, for_each_cons, turn_run. simpl.
  rewrite Hfile, Hun. unfold after. simpl. by rewrite <- !app_assoc.
Qed.

(** X12: there is no second attempt after the fallback: when the directory
    lists as empty and [rmdir] fails again, that [OSError] is raised as it
    is, even when it is [ENOTEMPTY] again, and it is not logged. *)
Theorem remove_directory_no_retry fuel path w e0 f0 e f :
  os_rmdir path (fs w) = (Some e0, f0) →
  errno e0 = Some ENOTEMPTY →
  os_iterdir path f0 = inr [] →
  os_rmdir path f0 = (Some e, f) →
  remove_directory (S fuel) path w =
    (Raise (OSError e),
     after w f (log w) [CRmdir path; CIterdir path; CRmdir path]).
Proof.
  intros Hrm Hne Hit Hrm2.
  rewrite remove_directory_first_attempt, Hrm.
  unfold errno_is. rewrite bool_decide_eq_true_2 by done.
  rewrite fallback_run. simpl. rewrite Hit. simpl. rewrite Hrm2.
  unfold after. simpl. by rewrite <- !app_assoc.
Qed.

End Recursion.

(** ** Backup paths *)

Lemma substring_length (s : string) (i m : nat) :
  i + m ≤ String.length s → String.length (String.substring i m s) = m.
Proof.
  revert i m. induction s as [|c s IH]; intros i m; simpl.
  - intros ?. assert (i = 0 ∧ m = 0) as [-> ->] by lia. done.
  - destruct i as [|i]; destruct m as [|m]; simpl; try done.
    + intros ?. rewrite IH; [done|lia].
    + intros ?. apply IH. lia.
    + intros ?. apply IH. lia.
Qed.

Lemma name_nonempty (p : Path) : pathlib.name p ≠ "" → p ≠ [].
Proof. by intros Hn ->. Qed.

(** The result of [with_suffix(".bak")]: the same directory, and a name made
    of a non-empty initial segment of the old name followed by [.bak]. *)
Lemma with_suffix_bak_inv (p b : Path) :
  pathlib.with_suffix p ".bak" = inl b →
  pathlib.name p ≠ "" ∧
  ∃ stem, stem ≠ "" ∧ b = removelast p ++ [stem +:+ ".bak"] ∧
          stem = String.substring 0 (String.length stem) (pathlib.name p).
Proof.
  unfold pathlib.with_suffix. simpl.
  case_bool_decide as Hname; [done|]. intros [= <-]. split; [done|].
  case_bool_decide as Hsuffix.
  { exists (pathlib.name p). split_and!; [done..|]. by rewrite substring_all. }
  revert Hsuffix. unfold pathlib.suffix.
  destruct (pathlib.rfind_dot (pathlib.name p)) as [i|]; [|done].
  destruct (bool_decide (0 < i)) eqn:Hi; [|done].
  destruct (bool_decide (i + 1 < String.length (pathlib.name p))) eqn:Hlen;
    [|done].
  simpl. intros _.
  apply bool_decide_eq_true in Hi, Hlen.
  rewrite substring_length by lia.
  replace (String.length (pathlib.name p) - (String.length (pathlib.name p) - i))
    with i by lia.
  exists (String.substring 0 i (pathlib.name p)).
  assert (String.length (String.substring 0 i (pathlib.name p)) = i) as Hstem
    by (apply substring_length; lia).
  split_and!; [|done|by rewrite Hstem].
  intros Hempty. rewrite Hempty in Hstem. simpl in Hstem. lia.
Qed.

Lemma with_suffix_bak_empty_name (p : Path) :
  pathlib.name p = "" →
  pathlib.with_suffix p ".bak" = inr "has an empty name".
Proof.
  intros Hname. unfold pathlib.with_suffix. simpl.
  by rewrite bool_decide_eq_true_2.
Qed.

(** The backup path of a backup path is that path again. *)
Lemma with_suffix_bak_idempotent (p b : Path) :
  pathlib.with_suffix p ".bak" = inl b → pathlib.with_suffix b ".bak" = inl b.
Proof.
  intros (_ & stem & Hstem & -> & _)%with_suffix_bak_inv.
  by apply (with_suffix_replaces_extension (removelast p) stem "bak").
Qed.

Section BackupPaths.
Context {P : Platform}.
Implicit Types (w : world) (path : Path).

(** X13: the path [create_backup] returns lies in the directory of the path
    it was given (same parts but the last) and its name is a non-empty
    initial segment of the old name followed by [.bak]; the one call made is
    [copy2] from the path to that backup path, and nothing is logged. *)
Theorem create_backup_sibling path w v w' :
  create_backup path w = (Return v, w') →
  ∃ backup_path stem,
    v = PyPath backup_path ∧
    removelast backup_path = removelast path ∧
    length backup_path = length path ∧
    stem ≠ "" ∧ pathlib.name backup_path = stem +:+ ".bak" ∧
    stem = String.substring 0 (String.length stem) (pathlib.name path) ∧
    calls w' = calls w ++ [CCopy2 path backup_path] ∧
    log w' = log w.
Proof.
  rewrite create_backup_run.
  destruct (pathlib.with_suffix path ".bak") as [b|msg] eqn:Hb; [|done].
  destruct (os_copy2 path b (fs w)) as [[e|] f]; [done|].
  intros [= <- <-].
  apply with_suffix_bak_inv in Hb as (Hname & stem & Hstem & -> & Hseg).
  exists (removelast path ++ [stem +:+ ".bak"]), stem.
  split_and!; try done.
  - apply removelast_last.
  - destruct (exists_last (name_nonempty _ Hname)) as (q & x & ->).
    rewrite removelast_last, !length_app. done.
  - apply name_snoc; apply (long_name_not_root (stem +:+ ".bak"));
      by apply (extension_name_long stem "bak").
Qed.

(** X14: for a path with an empty name (the empty path, or a root alone)
    [create_backup] raises the [ValueError] of [with_suffix]; it has then
    called nothing and logged nothing. *)
Theorem create_backup_empty_name path w :
  pathlib.name path = "" →
  create_backup path w = (Raise (ValueError "has an empty name"), w).
Proof.
  intros Hname. rewrite create_backup_run.
  by rewrite with_suffix_bak_empty_name.
Qed.

(** X15: backing up a backup copies it onto itself: for the path
    [create_backup] has returned, a second [create_backup] computes the same
    path and calls [copy2] with it as source and as destination. *)
Theorem create_backup_of_backup path w backup_path w1 w2 :
  create_backup path w = (Return (PyPath backup_path), w1) →
  create_backup backup_path w2 =
    match os_copy2 backup_path backup_path (fs w2) with
    | (None, f) =>
        (Return (PyPath backup_path),
         after w2 f (log w2) [CCopy2 backup_path backup_path])
    | (Some e, f) =>
        (Raise (OSError e),
         after w2 f (log w2 ++ [describe e; describe e])
           [CCopy2 backup_path backup_path])
    end.
Proof.
  rewrite create_backup_run.
  destruct (pathlib.with_suffix path ".bak") as [b|msg] eqn:Hb; [|done].
  destruct (os_copy2 path b (fs w)) as [[e|] f]; [done|].
  intros [= -> _]. rewrite create_backup_run.
  by rewrite (with_suffix_bak_idempotent _ _ Hb).
Qed.

End BackupPaths.

(** * The properties at work on the sample tree *)

#[local] Existing Instance PosixFS.platform.

Lemma sample_wf : PosixFS.wf (PosixFS.entries PosixFS.sample).
Proof. compute_done. Qed.

Lemma make_directory_classification_witness :
  make_directory ["locked"; "new"] (start PosixFS.sample)
    = (Return PyNone, World PosixFS.sample [] [CMkdir ["locked"; "new"]]) ∧
  make_directory ["new"] (start PosixFS.sample_read_only)
    = (Raise (Error PermissionDeniedError
                "30 - Read-only file system - new" None),
       World PosixFS.sample_read_only
         ["30 - Read-only file system - new"] [CMkdir ["new"]]).
Proof.
  split.
  - refine (proj1 (make_directory_classification ["locked"; "new"]
                     (start PosixFS.sample)
                     (PosixFS.failure EACCES "Permission denied" ["locked"; "new"])
                     PosixFS.sample _) _);
      vm_compute; reflexivity.
  - refine (proj1 (proj2 (make_directory_classification ["new"]
                     (start PosixFS.sample_read_only)
                     (PosixFS.failure EROFS "Read-only file system" ["new"])
                     PosixFS.sample_read_only _)) _);
      [vm_compute; reflexivity | vm_compute; discriminate].
Defined.

Lemma validate_paths_short_circuit_witness :
  validate_paths ["missing"] ["nowhere"] (start PosixFS.sample)
    = (Raise (Error SourceNotValidError "missing does not exist." None),
       World PosixFS.sample [] [CExists ["missing"]]).
Proof.
  refine (proj1 (validate_paths_short_circuit ["missing"] ["nowhere"]
                   (start PosixFS.sample)) _).
  vm_compute; reflexivity.
Defined.

Lemma transfer_source_missing_witness :
  transfer ["missing"] ["out"] copy (start PosixFS.sample)
    = (Raise (Error SourceNotValidError ""
                (Some (Error SourceNotValidError
                         "missing does not exist." None))),
       World PosixFS.sample [] [CExists ["missing"]]).
Proof.
  refine (transfer_source_missing ["missing"] ["out"] copy
            (start PosixFS.sample) _).
  vm_compute; reflexivity.
Defined.

(** The filesystem after [new] has been created in the sample tree. *)
Lemma transfer_creates_destination_witness :
  ∃ f, os_mkdir ["new"] PosixFS.sample = (None, f) ∧
    transfer ["src.txt"] ["new"] copy (start PosixFS.sample)
    = discard (copy ["src.txt"] ["new"]
                 (World f []
                    [CExists ["src.txt"]; CExists ["new"]; CMkdir ["new"];
                     CCopyFunc ["src.txt"] ["new"]])).
Proof.
  eexists. split; [reflexivity|].
  refine (proj1 (transfer_creates_destination ["src.txt"] ["new"] copy
                   (start PosixFS.sample) _ _ _ _));
    vm_compute; reflexivity.
Defined.

Lemma transfer_creation_failure_outcome_witness :
  transfer ["src.txt"] ["locked"; "new"] copy (start PosixFS.sample)
    = discard (copy ["src.txt"] ["locked"; "new"]
                 (World PosixFS.sample []
                    [CExists ["src.txt"]; CExists ["locked"; "new"];
                     CMkdir ["locked"; "new"];
                     CCopyFunc ["src.txt"] ["locked"; "new"]])).
Proof.
  refine (proj1 (transfer_creation_failure_outcome ["src.txt"] ["locked"; "new"]
                   copy (start PosixFS.sample)
                   (PosixFS.failure EACCES "Permission denied" ["locked"; "new"])
                   PosixFS.sample _ _ _) _);
    vm_compute; reflexivity.
Defined.

Lemma create_backup_returns_backup_path_witness :
  ∃ f,
    create_backup ["src.txt"] (start PosixFS.sample)
    = (Return (PyPath ["src.bak"]),
       World f [] [CCopy2 ["src.txt"] ["src.bak"]]).
Proof.
  eexists.
  refine (proj1 create_backup_returns_backup_path [] "src" "txt"
            (start PosixFS.sample) _ _ _ _ _).
  - done.
  - done.
  - reflexivity.
  - vm_compute; reflexivity.
Defined.

Lemma remove_directory_post_order_witness :
  ∃ tr,
    remove_directory 3 ["tree"] (start PosixFS.sample)
    = (Return (PyBool true),
       World (PosixFS.Mk (PosixFS.purge ["tree"] (PosixFS.entries PosixFS.sample))
                false) [] tr) ∧
    head tr = Some (CRmdir ["tree"]) ∧ last tr = Some (CRmdir ["tree"]).
Proof.
  destruct remove_directory_post_order as [_ H].
  apply (H 3 ["tree"] (PosixFS.entries PosixFS.sample) [] []).
  - apply sample_wf.
  - done.
  - reflexivity.
  - reflexivity.
  - compute_done.
  - compute_done.
Defined.

Lemma transfer_copies_after_eacces_witness :
  make_directory ["locked"; "new"] (start PosixFS.sample)
    = (Return PyNone, World PosixFS.sample [] [CMkdir ["locked"; "new"]]) ∧
  os_exists ["locked"; "new"] PosixFS.sample = false ∧
  transfer ["src.txt"] ["locked"; "new"] copy (start PosixFS.sample)
    = discard (copy ["src.txt"] ["locked"; "new"]
                 (World PosixFS.sample []
                    [CExists ["src.txt"]; CExists ["locked"; "new"];
                     CMkdir ["locked"; "new"];
                     CCopyFunc ["src.txt"] ["locked"; "new"]])).
Proof.
  refine (transfer_copies_after_eacces ["src.txt"] ["locked"; "new"] copy
            (start PosixFS.sample)
            (PosixFS.failure EACCES "Permission denied" ["locked"; "new"])
            PosixFS.sample _ _ _ _ _);
    vm_compute; reflexivity.
Defined.

(** [with_suffix] on a few names. *)
Example with_suffix_examples :
  pathlib.with_suffix ["/"; "srv"; "archive.tar.gz"] ".bak"
    = inl ["/"; "srv"; "archive.tar.bak"] ∧
  pathlib.with_suffix ["notes"] ".bak" = inl ["notes.bak"] ∧
  pathlib.with_suffix [".bashrc"] ".bak" = inl [".bashrc.bak"] ∧
  pathlib.with_suffix ["/"] ".bak" = inr "has an empty name".
Proof. by vm_compute. Qed.

(** The test of [upload] in [test_file_handle.py]: a file is uploaded into a
    directory that does not exist yet. *)
Example upload_into_new_directory :
  ∃ w,
    upload ["src.txt"] ["test_dir"] copy (start PosixFS.sample)
      = (Return (PyBool true), w) ∧
    PosixFS.entries (fs w) !! ["test_dir"; "src.txt"]
      = Some (PosixFS.File "hello") ∧
    calls w = [CExists ["src.txt"]; CExists ["test_dir"]; CMkdir ["test_dir"];
               CCopyFunc ["src.txt"] ["test_dir"];
               CCopy2 ["src.txt"] ["test_dir"]].
Proof.
  exists (upload ["src.txt"] ["test_dir"] copy
            (@start PosixFS.platform PosixFS.sample)).2.
  split_and!; [apply outcome_and_world|..]; by vm_compute.
Qed.

(** ** Further runs on the sample trees *)

Lemma transfer_return_origin_witness :
  PyNone = PyNone ∧
  os_exists ["src.txt"] (fs (start PosixFS.sample)) = true ∧
  ∃ f pre v0,
    copy ["src.txt"] ["out"]
      (after (start PosixFS.sample) f (log (start PosixFS.sample))
         (pre ++ [CCopyFunc ["src.txt"] ["out"]]))
    = (Return v0, (transfer ["src.txt"] ["out"] copy (start PosixFS.sample)).2).
Proof.
  apply (transfer_return_origin (P := PosixFS.platform) ["src.txt"] ["out"] copy (@start PosixFS.platform PosixFS.sample)).
  apply outcome_and_world; vm_compute; reflexivity.
Defined.

Lemma transfer_mkdir_failure_witness :
  transfer ["src.txt"] ["new"] copy (start PosixFS.sample_read_only)
    = (Raise (Error DestinationNotValidError ""
                (Some (Error PermissionDeniedError
                         (describe (PosixFS.failure EROFS "Read-only file system"
                                      ["new"])) None))),
       after (start PosixFS.sample_read_only) PosixFS.sample_read_only
         (log (start PosixFS.sample_read_only)
          ++ [describe (PosixFS.failure EROFS "Read-only file system" ["new"])])
         [CExists ["src.txt"]; CExists ["new"]; CMkdir ["new"]]).
Proof.
  apply (transfer_mkdir_failure (P := PosixFS.platform) ["src.txt"] ["new"] copy
           (@start PosixFS.platform PosixFS.sample_read_only));
    vm_compute; (reflexivity || discriminate).
Defined.

Lemma make_directory_True_iff_witness :
  ∃ f, os_mkdir ["out"; "a"; "b"] (fs (start PosixFS.sample)) = (None, f) ∧
       (make_directory ["out"; "a"; "b"] (start PosixFS.sample)).2
       = after (start PosixFS.sample) f (log (start PosixFS.sample))
           [CMkdir ["out"; "a"; "b"]].
Proof.
  apply (make_directory_True_iff (P := PosixFS.platform) ["out"; "a"; "b"]
           (@start PosixFS.platform PosixFS.sample)).
  apply outcome_and_world; vm_compute; reflexivity.
Defined.

Lemma upload_default_strategy_witness :
  upload ["src.txt"] ["out"] copy (start PosixFS.sample)
    = download ["src.txt"] ["out"] copy (start PosixFS.sample) ∧
  match os_copy2 ["src.txt"] ["out"] (fs (start PosixFS.sample)) with
  | (None, f) =>
      upload ["src.txt"] ["out"] copy (start PosixFS.sample)
        = (Return (PyBool true),
           after (start PosixFS.sample) f (log (start PosixFS.sample))
             [CExists ["src.txt"]; CExists ["out"];
              CCopyFunc ["src.txt"] ["out"]; CCopy2 ["src.txt"] ["out"]])
  | (Some err, f) =>
      upload ["src.txt"] ["out"] copy (start PosixFS.sample)
        = (Raise (OSError err),
           after (start PosixFS.sample) f
             (log (start PosixFS.sample) ++ [describe err])
             [CExists ["src.txt"]; CExists ["out"];
              CCopyFunc ["src.txt"] ["out"]; CCopy2 ["src.txt"] ["out"]])
  end.
Proof.
  apply (upload_default_strategy (P := PosixFS.platform) ["src.txt"] ["out"] (@start PosixFS.platform PosixFS.sample));
    vm_compute; reflexivity.
Defined.

Lemma remove_directory_returns_True_witness :
  PyBool true = PyBool true ∧
  log (remove_directory 3 ["tree"] (start PosixFS.sample)).2
    = log (start PosixFS.sample).
Proof.
  apply (remove_directory_returns_True (P := PosixFS.platform) 3 ["tree"] (@start PosixFS.platform PosixFS.sample)).
  apply outcome_and_world; vm_compute; reflexivity.
Defined.

Lemma remove_directory_unlink_failure_witness :
  remove_directory 2 ["locked"] (start sample_locked)
    = (Raise (OSError (PosixFS.failure EACCES "Permission denied"
                         ["locked"; "secret.txt"])),
       after (start sample_locked) sample_locked (log (start sample_locked))
         [CRmdir ["locked"]; CIterdir ["locked"];
          CIsFile ["locked"; "secret.txt"]; CUnlink ["locked"; "secret.txt"]]).
Proof.
  apply (remove_directory_unlink_failure (P := PosixFS.platform) 1 ["locked"] (@start PosixFS.platform sample_locked)
           (PosixFS.failure ENOTEMPTY "Directory not empty" ["locked"])
           sample_locked ["locked"; "secret.txt"] []);
    vm_compute; reflexivity.
Defined.

Lemma remove_directory_no_retry_witness :
  remove_directory (P := busy) 1 ["spool"] (@World busy tt [] [])
    = (Raise (OSError (OsError (Some ENOTEMPTY) "Directory not empty" "spool")),
       @World busy tt []
         [CRmdir ["spool"]; CIterdir ["spool"]; CRmdir ["spool"]]).
Proof.
  apply (remove_directory_no_retry (P := busy) 0 ["spool"] (@World busy tt [] [])
           (OsError (Some ENOTEMPTY) "Directory not empty" "spool") tt);
    reflexivity.
Defined.

Lemma create_backup_sibling_witness :
  ∃ backup_path stem,
    PyPath ["tree"; "sub"; "b.bak"] = PyPath backup_path ∧
    removelast backup_path = removelast ["tree"; "sub"; "b.txt"] ∧
    length backup_path = length ["tree"; "sub"; "b.txt"] ∧
    stem ≠ "" ∧ pathlib.name backup_path = stem +:+ ".bak" ∧
    stem = String.substring 0 (String.length stem)
             (pathlib.name ["tree"; "sub"; "b.txt"]) ∧
    calls (create_backup ["tree"; "sub"; "b.txt"] (start PosixFS.sample)).2
      = calls (start PosixFS.sample)
        ++ [CCopy2 ["tree"; "sub"; "b.txt"] backup_path] ∧
    log (create_backup ["tree"; "sub"; "b.txt"] (start PosixFS.sample)).2
      = log (start PosixFS.sample).
Proof.
  apply (create_backup_sibling (P := PosixFS.platform) ["tree"; "sub"; "b.txt"] (@start PosixFS.platform PosixFS.sample)).
  apply outcome_and_world; vm_compute; reflexivity.
Defined.

Lemma create_backup_empty_name_witness :
  create_backup ["//"] (start PosixFS.sample)
    = (Raise (ValueError "has an empty name"), start PosixFS.sample).
Proof.
  apply (create_backup_empty_name (P := PosixFS.platform) ["//"]
           (@start PosixFS.platform PosixFS.sample)).
  reflexivity.
Defined.

Lemma create_backup_of_backup_witness :
  create_backup ["src.bak"]
    (create_backup ["src.txt"] (start PosixFS.sample)).2
  = match os_copy2 ["src.bak"] ["src.bak"]
            (fs (create_backup ["src.txt"] (start PosixFS.sample)).2) with
    | (None, f) =>
        (Return (PyPath ["src.bak"]),
         after (create_backup ["src.txt"] (start PosixFS.sample)).2 f
           (log (create_backup ["src.txt"] (start PosixFS.sample)).2)
           [CCopy2 ["src.bak"] ["src.bak"]])
    | (Some e, f) =>
        (Raise (OSError e),
         after (create_backup ["src.txt"] (start PosixFS.sample)).2 f
           (log (create_backup ["src.txt"] (start PosixFS.sample)).2
            ++ [describe e; describe e])
           [CCopy2 ["src.bak"] ["src.bak"]])
    end.
Proof.
  apply (create_backup_of_backup (P := PosixFS.platform) ["src.txt"] (@start PosixFS.platform PosixFS.sample) ["src.bak"]
           (create_backup ["src.txt"] (@start PosixFS.platform PosixFS.sample)).2).
  apply outcome_and_world; vm_compute; reflexivity.
Defined.

(** The second backup fails on the sample tree: [copy2] refuses to copy a
    file onto itself. *)
Example backup_of_backup_same_file :
  (create_backup ["src.bak"]
     (create_backup ["src.txt"] (start PosixFS.sample)).2).1
  = Raise (OSError (OsError None "None" "None")).
Proof. by vm_compute. Qed.
